(** * Orthographic spacing calculator: a shallow embedding of [calculator.js]

    JavaScript numbers are modelled as exact rationals ([Q]): every finite
    double is a rational, and the arithmetic of the program is read with its
    mathematical meaning (no rounding of intermediate results, no signed
    zero).  The only place where the program can leave the finite numbers is
    the division by the grid extent in [render]; it is modelled with the
    extended numbers [xnum] below.  Equality of numbers is [Qeq] ([==]). *)

From Stdlib Require Import ZArith QArith Qround Qminmax Qabs List String Bool Lia Lqa.
Import ListNotations.

Local Open Scope string_scope.
Local Open Scope list_scope.
Local Open Scope Z_scope.
Local Open Scope Q_scope.

(** ** Numbers *)

Definition Qltb (x y : Q) : bool := negb (Qle_bool y x).

(** [Math.round]: nearest integer, ties towards +infinity. *)
Definition Math_round (x : Q) : Z := Qfloor (x + (1 # 2)).

Definition Math_floor (x : Q) : Z := Qfloor x.

(** [%] on integer-valued numbers: the remainder has the sign of the
    dividend. *)
Definition js_rem (a b : Z) : Z := Z.rem a b.

(** Numbers extended with the values a division by zero produces. *)
Inductive xnum := Fin (q : Q) | PosInf | NegInf | NaN.

Definition xdiv (a b : Q) : xnum :=
  if Qeq_bool b 0 then
    if Qltb 0 a then PosInf else if Qltb a 0 then NegInf else NaN
  else Fin (a / b).

(** [Math.min] and [Math.max] of two numbers. *)
Definition xmin (a b : xnum) : xnum :=
  match a, b with
  | NaN, _ | _, NaN => NaN
  | NegInf, _ | _, NegInf => NegInf
  | PosInf, x | x, PosInf => x
  | Fin p, Fin q => Fin (Qmin p q)
  end.

Definition xmax (a b : xnum) : xnum :=
  match a, b with
  | NaN, _ | _, NaN => NaN
  | PosInf, _ | _, PosInf => PosInf
  | NegInf, x | x, NegInf => x
  | Fin p, Fin q => Fin (Qmax p q)
  end.

(** Equality of extended numbers, up to [Qeq] on the finite ones. *)
Definition xeq (a b : xnum) : Prop :=
  match a, b with
  | Fin p, Fin q => p == q
  | PosInf, PosInf | NegInf, NegInf => True
  | _, _ => False
  end.

(** The finite value of an extended number ([0] for the others; [render]
    only applies it to the scale, which is finite by [fitScale_finite]). *)
Definition finite (x : xnum) : Q :=
  match x with Fin q => q | _ => 0 end.

(** [Math.hypot]: the Euclidean length, as a rational.  The value is exact
    when the sum of squares is the square of a rational (in particular for
    axis-aligned segments), and is rounded down otherwise; a comparison
    with a non-negative integer always has the outcome it has for the real
    length (lemma [Math_hypot_lt]). *)
Definition Math_hypot (dx dy : Q) : Q :=
  let s := dx * dx + dy * dy in
  Z.sqrt (Qnum s * Zpos (Qden s)) # Qden s.

(** ** Views and shapes *)

Module View.
Record t := mk { H : Q; V : Q }.
End View.

Record Shape := mkShape { TOP : View.t; FRONT : View.t; RIGHT : View.t }.

(** ** The spacing formula *)

(** The object [{ vert, hori }] returned by [getSpacing]; each array has
    three entries in the even branch and two in the other. *)
Record Spacing := mkSpacing { vert : list Q; hori : list Q }.

Definition getSpacing (areaH areaV : Q) (shape : Shape) : Spacing :=
  let vertRaw := areaV - (View.V (FRONT shape) + View.V (TOP shape)) in
  let vertRounded := Math_round vertRaw in
  let vert :=
    if (js_rem vertRounded 3 =? 0)%Z then
      [inject_Z vertRounded / 3; inject_Z vertRounded / 3; inject_Z vertRounded / 3]
    else
      let v1 := Qmin 3 (inject_Z (Math_floor (inject_Z vertRounded / 2))) in
      let v0 := Qmax 0 ((inject_Z vertRounded - v1) / 2) in
      [v0; v1] in
  let horiRaw := areaH - (View.H (FRONT shape) + View.H (RIGHT shape)) in
  let horiRounded := Math_round horiRaw in
  let hori :=
    if (js_rem horiRounded 3 =? 0)%Z then
      [inject_Z horiRounded / 3; inject_Z horiRounded / 3; inject_Z horiRounded / 3]
    else
      let h1 := Qmin 3 (inject_Z (Math_floor (inject_Z horiRounded / 2))) in
      let h0 := Qmax 0 ((inject_Z horiRounded - h1) / 2) in
      [h0; h1] in
  {| vert := vert; hori := hori |}.

(** The rounded leftover of each axis, as [getSpacing] computes it. *)
Definition vertRounded (areaV : Q) (shape : Shape) : Z :=
  Math_round (areaV - (View.V (FRONT shape) + View.V (TOP shape))).

Definition horiRounded (areaH : Q) (shape : Shape) : Z :=
  Math_round (areaH - (View.H (FRONT shape) + View.H (RIGHT shape))).

(** The two axes of [getSpacing]. *)
Inductive axis := Vertical | Horizontal.

Definition rounded_on (ax : axis) (areaH areaV : Q) (shape : Shape) : Z :=
  match ax with
  | Vertical => vertRounded areaV shape
  | Horizontal => horiRounded areaH shape
  end.

Definition spacing_on (ax : axis) (sp : Spacing) : list Q :=
  match ax with Vertical => vert sp | Horizontal => hori sp end.

Definition default_shape : Shape :=
  {| TOP := View.mk 6 5; FRONT := View.mk 6 4; RIGHT := View.mk 5 4 |}.

(** ** Reading the inputs *)

(** The page, as far as the program reads and writes it.  A numeric field
    holds the result of [parseFloat] on its text: [None] stands for [NaN]
    (empty or non-numeric text). *)
Record Fields := mkFields {
  f_width : option Q;
  f_height : option Q;
  f_depth : option Q;
  f_areaH : option Q;
  f_areaV : option Q
}.

(** [parseFloat(...) || d]: [NaN] and [0] are falsy. *)
Definition or_default (x : option Q) (d : Q) : Q :=
  match x with
  | Some q => if Qeq_bool q 0 then d else q
  | None => d
  end.

Record Inputs := mkInputs {
  in_W : Q; in_H : Q; in_D : Q; in_aH : Q; in_aV : Q; in_shape : Shape
}.

Definition readInputs (f : Fields) : Inputs :=
  let W := or_default (f_width f) 6 in
  let H := or_default (f_height f) 4 in
  let D := or_default (f_depth f) 5 in
  let aH := or_default (f_areaH f) 16 in
  let aV := or_default (f_areaV f) 16 in
  let shape := {| TOP := View.mk W D; FRONT := View.mk W H; RIGHT := View.mk D H |} in
  {| in_W := W; in_H := H; in_D := D; in_aH := aH; in_aV := aV; in_shape := shape |}.

(** The spacing object [{ v0, v1, h0, h1 }] handed to [render]. *)
Record Sp := mkSp { v0 : Q; v1 : Q; h0 : Q; h1 : Q }.

(** [a[i]] on an array of numbers; the arrays of [getSpacing] always have
    the entries that are read (lemma [getSpacing_length]). *)
Definition at_index (a : list Q) (i : nat) : Q := nth i a 0.

(** The four values [calculate] extracts from the result of [getSpacing]. *)
Definition calculate_sp (f : Fields) : Sp :=
  let i := readInputs f in
  let sp := getSpacing (in_aH i) (in_aV i) (in_shape i) in
  let v0 := at_index (vert sp) 0 in
  let v1 := if (1 <? List.length (vert sp))%nat then at_index (vert sp) 1 else at_index (vert sp) 0 in
  let h0 := at_index (hori sp) 0 in
  let h1 := if (1 <? List.length (hori sp))%nat then at_index (hori sp) 1 else at_index (hori sp) 0 in
  {| v0 := v0; v1 := v1; h0 := h0; h1 := h1 |}.

Definition no_fields : Fields := mkFields None None None None None.

(** ** Drawn elements *)

Definition TICK : Q := 5.
Definition MIN_LBL : Q := 14.

(** The value of an attribute: a number or a string. *)
Inductive attr := Num (q : Q) | Str (s : string).

(** The text of an element: a literal, or [v.toFixed(digits)]. *)
Inductive label := Lit (s : string) | ToFixed (v : Q) (digits : nat).

Record elem := mkElem {
  tag : string;
  attrs : list (string * attr);
  textContent : option label
}.

Definition createElementNS (tag : string) : elem :=
  {| tag := tag; attrs := []; textContent := None |}.

(** [setAttribute] replaces the value of an attribute that is present and
    adds the attribute otherwise. *)
Fixpoint set_attr (k : string) (v : attr) (l : list (string * attr)) : list (string * attr) :=
  match l with
  | [] => [(k, v)]
  | (k', v') :: r => if String.eqb k' k then (k, v) :: r else (k', v') :: set_attr k v r
  end.

Definition setAttribute (k : string) (v : attr) (e : elem) : elem :=
  {| tag := tag e; attrs := set_attr k v (attrs e); textContent := textContent e |}.

Definition set_textContent (l : label) (e : elem) : elem :=
  {| tag := tag e; attrs := attrs e; textContent := Some l |}.

Fixpoint get_attr (k : string) (l : list (string * attr)) : option attr :=
  match l with
  | [] => None
  | (k', v) :: r => if String.eqb k' k then Some v else get_attr k r
  end.

Definition getAttribute (k : string) (e : elem) : option attr := get_attr k (attrs e).

(** The group [_g] is emptied when [render] starts and only appended to
    afterwards: each drawing function is modelled by the list of children it
    appends, in order. *)
Definition mk (tag : string) (attrs : list (string * attr)) : list elem :=
  [fold_left (fun e kv => setAttribute (fst kv) (snd kv) e) attrs (createElementNS tag)].

Definition svgLine (x1 y1 x2 y2 : Q) (cls : string) : list elem :=
  mk "line" [("x1", Num x1); ("y1", Num y1); ("x2", Num x2); ("y2", Num y2); ("class", Str cls)].

(** ** Dimension arrow *)

(** The [opts] argument; an absent object or property is [None]. *)
Record Opts := mkOpts { labelOffset : option Q; labelSide : option string }.

Definition no_opts : Opts := mkOpts None None.

Definition side_is_right (opts : Opts) : bool :=
  match labelSide opts with Some s => String.eqb s "right" | None => false end.

Definition dimArrow (x1 y1 x2 y2 : Q) (lbl : label) (type : string) (opts : Opts) : list elem :=
  let isSpace := String.eqb type "space" in
  let lineCls := if isSpace then "dim-space" else "dim-shape" in
  let txtCls := if isSpace then "dim-space-text" else "dim-shape-text" in
  let mEnd := if isSpace then "url(#ah-red-e)" else "url(#ah-blue-e)" in
  let mStart := if isSpace then "url(#ah-red-s)" else "url(#ah-blue-s)" in
  let dx := x2 - x1 in
  let dy := y2 - y1 in
  let len := Math_hypot dx dy in
  if Qltb len 1 then [] else
  let px := - dy / len in
  let py := dx / len in
  let mx := (x1 + x2) / 2 in
  let my := (y1 + y2) / 2 in
  let isH := Qltb (Qabs dy) (1 # 2) in
  let isV := Qltb (Qabs dx) (1 # 2) in
  let short := Qltb len MIN_LBL in
  let t := createElementNS "text" in
  let t := setAttribute "class" (Str txtCls) t in
  let t := setAttribute "dominant-baseline" (Str "middle") t in
  let t := set_textContent lbl t in
  let t :=
    if isH then
      let offset := match labelOffset opts with Some o => o | None => - (8) end in
      let t := setAttribute "x" (Num mx) t in
      let t := setAttribute "y" (Num (my + offset)) t in
      let t := setAttribute "text-anchor" (Str "middle") t in
      if short then
        let t := setAttribute "x" (Num (Qmax x1 x2 + 5)) t in
        let t := setAttribute "y" (Num my) t in
        setAttribute "text-anchor" (Str "start") t
      else t
    else if isV then
      let side := if side_is_right opts then 1 else - (1) in
      let offset := match labelOffset opts with Some o => o | None => 12 end in
      let t := setAttribute "x" (Num (mx + side * offset)) t in
      let t := setAttribute "y" (Num my) t in
      let t := setAttribute "text-anchor" (Str (if side_is_right opts then "start" else "end")) t in
      if short then setAttribute "y" (Num (my - 10)) t else t
    else t in
  mk "line" [("x1", Num x1); ("y1", Num y1); ("x2", Num x2); ("y2", Num y2);
             ("class", Str lineCls); ("marker-end", Str mEnd); ("marker-start", Str mStart)]
  ++ svgLine (x1 + px * TICK) (y1 + py * TICK) (x1 - px * TICK) (y1 - py * TICK) lineCls
  ++ svgLine (x2 + px * TICK) (y2 + py * TICK) (x2 - px * TICK) (y2 - py * TICK) lineCls
  ++ [t].

(** ** Main render *)

Definition PAD_L : Q := 56.
Definition PAD_R : Q := 56.
Definition PAD_T : Q := 44.
Definition PAD_B : Q := 44.
Definition OFF : Q := 12.

(** The size of the [.svg-wrap] element, read by [render]. *)
Record Viewport := mkViewport { clientWidth : Z; clientHeight : Z }.

(** [(client || d) - 2], at least [200]. *)
Definition avail (client : Z) (d : Z) : Q :=
  Qmax (inject_Z (if (client =? 0)%Z then d else client) - 2) 200.

Definition scaleH (availW totalUnitsH : Q) : xnum := xdiv (availW - PAD_L - PAD_R) totalUnitsH.
Definition scaleV (availH totalUnitsV : Q) : xnum := xdiv (availH - PAD_T - PAD_B) totalUnitsV.

(** [Math.max(6, Math.min(scaleH, scaleV, 40))]. *)
Definition fitScale (availW availH totalUnitsH totalUnitsV : Q) : xnum :=
  xmax (Fin 6)
       (xmin (xmin (scaleH availW totalUnitsH) (scaleV availH totalUnitsV)) (Fin 40)).

(** The constants [render] binds before it draws (lines 191 to 255 of the
    source), under the names they have there ([scale] is the source's
    [S]). *)
Record Geom := mkGeom {
  fW : Q; fH : Q; dW : Q; dH : Q;
  totalUnitsH : Q; totalUnitsV : Q;
  availW : Q; availH : Q;
  scale : Q;
  daX : Q; daY : Q; daW : Q; daH : Q;
  pH0 : Q; pH1 : Q; pV0 : Q; pV1 : Q;
  pfW : Q; pfH : Q; pdW : Q; pdH : Q;
  tlX : Q; tlY : Q; tlW : Q; tlH : Q;
  trX : Q; trY : Q; trW : Q; trH : Q;
  blX : Q; blY : Q; blW : Q; blH : Q;
  brX : Q; brY : Q; brW : Q; brH : Q
}.

Definition layout (shape : Shape) (sp : Sp) (wrap : Viewport) : Geom :=
  let fW := View.H (FRONT shape) in
  let fH := View.V (FRONT shape) in
  let dW := View.H (RIGHT shape) in
  let dH := View.V (TOP shape) in
  let totalUnitsH := h0 sp + fW + h1 sp + dW + h0 sp in
  let totalUnitsV := v0 sp + dH + v1 sp + fH + v0 sp in
  let availW := avail (clientWidth wrap) 600 in
  let availH := avail (clientHeight wrap) 500 in
  let S := finite (fitScale availW availH totalUnitsH totalUnitsV) in
  let daX := PAD_L in
  let daY := PAD_T in
  let daW := totalUnitsH * S in
  let daH := totalUnitsV * S in
  let pH0 := h0 sp * S in
  let pH1 := h1 sp * S in
  let pV0 := v0 sp * S in
  let pV1 := v1 sp * S in
  let pfW := fW * S in
  let pfH := fH * S in
  let pdW := dW * S in
  let pdH := dH * S in
  {| fW := fW; fH := fH; dW := dW; dH := dH;
     totalUnitsH := totalUnitsH; totalUnitsV := totalUnitsV;
     availW := availW; availH := availH;
     scale := S;
     daX := daX; daY := daY; daW := daW; daH := daH;
     pH0 := pH0; pH1 := pH1; pV0 := pV0; pV1 := pV1;
     pfW := pfW; pfH := pfH; pdW := pdW; pdH := pdH;
     tlX := daX + pH0; tlY := daY + pV0; tlW := pfW; tlH := pdH;
     trX := daX + pH0 + pfW + pH1; trY := daY + pV0; trW := pdW; trH := pdH;
     blX := daX + pH0; blY := daY + pV0 + pdH + pV1; blW := pfW; blH := pfH;
     brX := daX + pH0 + pfW + pH1; brY := daY + pV0 + pdH + pV1; brW := pdW; brH := pfH |}.

(** The two grid loops, [for (let u = 0; u <= totalUnits; u++)], with the
    [break] of their bodies.  [fuel] bounds the iterations; [render] gives
    one per integer in [0 .. floor totalUnits], which is all the loop can
    run (lemmas [gridV_fuel] and [gridH_fuel]). *)
Fixpoint gridV (fuel : nat) (u : Z) (g : Geom) : list elem :=
  match fuel with
  | O => []
  | Datatypes.S n =>
      if Qle_bool (inject_Z u) (totalUnitsH g) then
        let x := daX g + inject_Z u * scale g in
        if Qltb (daX g + daW g + (1 # 10)) x then []
        else svgLine x (daY g) x (daY g + daH g) "grid-line" ++ gridV n (u + 1) g
      else []
  end.

Fixpoint gridH (fuel : nat) (u : Z) (g : Geom) : list elem :=
  match fuel with
  | O => []
  | Datatypes.S n =>
      if Qle_bool (inject_Z u) (totalUnitsV g) then
        let y := daY g + inject_Z u * scale g in
        if Qltb (daY g + daH g + (1 # 10)) y then []
        else svgLine (daX g) y (daX g + daW g) y "grid-line" ++ gridH n (u + 1) g
      else []
  end.

Definition loop_fuel (totalUnits : Q) : nat := Z.to_nat (Qfloor totalUnits + 1).

Definition fmt (calculated : bool) (v : Q) : label :=
  if calculated then ToFixed v 1 else Lit "?".

Definition view_label (x y : Q) (t : string) : list elem :=
  let lbl := createElementNS "text" in
  let lbl := setAttribute "x" (Num x) lbl in
  let lbl := setAttribute "y" (Num y) lbl in
  let lbl := setAttribute "class" (Str "view-label") lbl in
  let lbl := setAttribute "text-anchor" (Str "middle") lbl in
  let lbl := setAttribute "dominant-baseline" (Str "middle") lbl in
  [set_textContent (Lit t) lbl].

Definition extDot (x1 y1 x2 y2 : Q) : list elem :=
  mk "line" [("x1", Num x1); ("y1", Num y1); ("x2", Num x2); ("y2", Num y2); ("class", Str "ext-dot")].

(** What [render] leaves on the page: the size it sets on the [svg]
    element and the children of the drawing group. *)
Record Drawing := mkDrawing { svg_width : Q; svg_height : Q; content : list elem }.

(** The parts of [render], under the banners they have in the source. *)

(** Background, grid lines and border. *)
Definition draw_area (g : Geom) : list elem :=
  mk "rect" [("x", Num (daX g)); ("y", Num (daY g)); ("width", Num (daW g));
             ("height", Num (daH g)); ("class", Str "draw-area-bg")]
  ++ gridV (loop_fuel (totalUnitsH g)) 0 g
  ++ gridH (loop_fuel (totalUnitsV g)) 0 g
  ++ mk "rect" [("x", Num (daX g)); ("y", Num (daY g)); ("width", Num (daW g));
                ("height", Num (daH g)); ("class", Str "draw-area-box")].

(** The four boxes, the diagonal of the top-right one and the view labels. *)
Definition boxes (g : Geom) : list elem :=
  mk "rect" [("x", Num (tlX g)); ("y", Num (tlY g)); ("width", Num (tlW g));
             ("height", Num (tlH g)); ("class", Str "box")]
  ++ mk "rect" [("x", Num (trX g)); ("y", Num (trY g)); ("width", Num (trW g));
                ("height", Num (trH g)); ("class", Str "box-accent")]
  ++ mk "rect" [("x", Num (blX g)); ("y", Num (blY g)); ("width", Num (blW g));
                ("height", Num (blH g)); ("class", Str "box")]
  ++ mk "rect" [("x", Num (brX g)); ("y", Num (brY g)); ("width", Num (brW g));
                ("height", Num (brH g)); ("class", Str "box")]
  ++ mk "line" [("x1", Num (trX g)); ("y1", Num (trY g + trH g));
                ("x2", Num (trX g + trW g)); ("y2", Num (trY g)); ("class", Str "diag")]
  ++ view_label (tlX g + tlW g / 2) (tlY g + tlH g / 2) "TOP"
  ++ view_label (blX g + blW g / 2) (blY g + blH g / 2) "FRONT"
  ++ view_label (brX g + brW g / 2) (brY g + brH g / 2) "RIGHT".

(** Shape dimension arrows (blue), with their extension lines. *)
Definition shape_arrows (g : Geom) (calculated : bool) : list elem :=
  let fmt := fmt calculated in
  let tlTop := tlY g - OFF in
  let tlLeft := tlX g - OFF in
  let trTop := trY g - OFF in
  let trRight := trX g + trW g + OFF in
  let blBot := blY g + blH g + OFF in
  let blLeft := blX g - OFF in
  let brBot := brY g + brH g + OFF in
  let brRight := brX g + brW g + OFF in
  (* TL box: top edge and left edge *)
  dimArrow (tlX g) tlTop (tlX g + tlW g) tlTop (fmt (fW g)) "shape" no_opts
  ++ extDot (tlX g) tlTop (tlX g) (tlY g)
  ++ extDot (tlX g + tlW g) tlTop (tlX g + tlW g) (tlY g)
  ++ dimArrow tlLeft (tlY g) tlLeft (tlY g + tlH g) (fmt (dH g)) "shape" (mkOpts None (Some "left"))
  ++ extDot tlLeft (tlY g) (tlX g) (tlY g)
  ++ extDot tlLeft (tlY g + tlH g) (tlX g) (tlY g + tlH g)
  (* TR box: top edge and right edge *)
  ++ dimArrow (trX g) trTop (trX g + trW g) trTop (fmt (dW g)) "shape" no_opts
  ++ extDot (trX g) trTop (trX g) (trY g)
  ++ extDot (trX g + trW g) trTop (trX g + trW g) (trY g)
  ++ dimArrow trRight (trY g) trRight (trY g + trH g) (fmt (dH g)) "shape" (mkOpts None (Some "right"))
  ++ extDot trRight (trY g) (trX g + trW g) (trY g)
  ++ extDot trRight (trY g + trH g) (trX g + trW g) (trY g + trH g)
  (* BL box: bottom edge and left edge *)
  ++ dimArrow (blX g) blBot (blX g + blW g) blBot (fmt (fW g)) "shape" (mkOpts (Some 10) None)
  ++ extDot (blX g) blBot (blX g) (blY g + blH g)
  ++ extDot (blX g + blW g) blBot (blX g + blW g) (blY g + blH g)
  ++ dimArrow blLeft (blY g) blLeft (blY g + blH g) (fmt (fH g)) "shape" (mkOpts None (Some "left"))
  ++ extDot blLeft (blY g) (blX g) (blY g)
  ++ extDot blLeft (blY g + blH g) (blX g) (blY g + blH g)
  (* BR box: bottom edge and right edge *)
  ++ dimArrow (brX g) brBot (brX g + brW g) brBot (fmt (dW g)) "shape" (mkOpts (Some 10) None)
  ++ extDot (brX g) brBot (brX g) (brY g + brH g)
  ++ extDot (brX g + brW g) brBot (brX g + brW g) (brY g + brH g)
  ++ dimArrow brRight (brY g) brRight (brY g + brH g) (fmt (fH g)) "shape" (mkOpts None (Some "right"))
  ++ extDot brRight (brY g) (brX g + brW g) (brY g)
  ++ extDot brRight (brY g + brH g) (brX g + brW g) (brY g + brH g).

(** [if (c) dimArrow(...)]. *)
Definition when (c : bool) (l : list elem) : list elem := if c then l else [].

(** Spacing dimension arrows (red). *)
Definition spacing_arrows (g : Geom) (sp : Sp) (calculated : bool) : list elem :=
  let fmt := fmt calculated in
  let below := mkOpts (Some 10) None in
  let above := mkOpts (Some (- (8))) None in
  let right := mkOpts None (Some "right") in
  let left := mkOpts None (Some "left") in
  (* along the top edge of the top row *)
  when (Qltb 1 (pH0 g))
    (dimArrow (daX g) (tlY g) (tlX g) (tlY g) (fmt (h0 sp)) "space" below)
  ++ when (Qltb 1 (pH1 g))
    (dimArrow (tlX g + tlW g) (tlY g) (trX g) (tlY g) (fmt (h1 sp)) "space" below)
  ++ when (Qltb 1 (pH0 g))
    (dimArrow (trX g + trW g) (tlY g) (daX g + daW g) (tlY g) (fmt (h0 sp)) "space" below)
  (* along the bottom edge of the bottom row *)
  ++ when (Qltb 1 (pH0 g))
    (dimArrow (daX g) (blY g + blH g) (blX g) (blY g + blH g) (fmt (h0 sp)) "space" above)
  ++ when (Qltb 1 (pH1 g))
    (dimArrow (blX g + blW g) (blY g + blH g) (brX g) (blY g + blH g) (fmt (h1 sp)) "space" above)
  ++ when (Qltb 1 (pH0 g))
    (dimArrow (brX g + brW g) (blY g + blH g) (daX g + daW g) (blY g + blH g) (fmt (h0 sp)) "space" above)
  (* along the left edge of the left column *)
  ++ when (Qltb 1 (pV0 g))
    (dimArrow (tlX g) (daY g) (tlX g) (tlY g) (fmt (v0 sp)) "space" right)
  ++ when (Qltb 1 (pV1 g))
    (dimArrow (tlX g) (tlY g + tlH g) (tlX g) (blY g) (fmt (v1 sp)) "space" right)
  ++ when (Qltb 1 (pV0 g))
    (dimArrow (tlX g) (blY g + blH g) (tlX g) (daY g + daH g) (fmt (v0 sp)) "space" right)
  (* along the right edge of the right column *)
  ++ when (Qltb 1 (pV0 g))
    (dimArrow (trX g + trW g) (daY g) (trX g + trW g) (trY g) (fmt (v0 sp)) "space" left)
  ++ when (Qltb 1 (pV1 g))
    (dimArrow (trX g + trW g) (trY g + trH g) (trX g + trW g) (brY g) (fmt (v1 sp)) "space" left)
  ++ when (Qltb 1 (pV0 g))
    (dimArrow (trX g + trW g) (brY g + brH g) (trX g + trW g) (daY g + daH g) (fmt (v0 sp)) "space" left).

Definition render (shape : Shape) (sp : Sp) (calculated : bool) (wrap : Viewport) : Drawing :=
  let g := layout shape sp wrap in
  {| svg_width := daX g + daW g + PAD_R;
     svg_height := daY g + daH g + PAD_B;
     content := draw_area g ++ boxes g ++ shape_arrows g calculated
                ++ spacing_arrows g sp calculated |}.

(** ** The page and its handlers *)

(** The state of the page the handlers read and write: the input fields,
    the size of the drawing's wrapper, the [display] style and the rows of
    the results section, and the drawing. *)
Record Page := mkPage {
  fields : Fields;
  wrap : Viewport;
  results_display : string;
  result_rows : list (string * label);
  drawing : Drawing
}.

Definition fallback_sp : Sp := {| v0 := 2; v1 := 3; h0 := 12 # 10; h1 := 24 # 10 |}.

Definition calculate (p : Page) : Page :=
  let sp := calculate_sp (fields p) in
  {| fields := fields p;
     wrap := wrap p;
     results_display := "";
     result_rows := [("h0  side margins", ToFixed (h0 sp) 2);
                     ("h1  mid gap", ToFixed (h1 sp) 2);
                     ("v0  top/bot", ToFixed (v0 sp) 2);
                     ("v1  mid gap", ToFixed (v1 sp) 2)];
     drawing := render (in_shape (readInputs (fields p))) sp true (wrap p) |}.

(** The initial render. *)
Definition init (p : Page) : Page :=
  {| fields := fields p;
     wrap := wrap p;
     results_display := results_display p;
     result_rows := result_rows p;
     drawing := render (in_shape (readInputs (fields p))) fallback_sp false (wrap p) |}.

(** The [resize] listener. *)
Definition on_resize (p : Page) : Page :=
  let calcDone := negb (String.eqb (results_display p) "none") in
  if calcDone then calculate p
  else
    {| fields := fields p;
       wrap := wrap p;
       results_display := results_display p;
       result_rows := result_rows p;
       drawing := render (in_shape (readInputs (fields p))) fallback_sp false (wrap p) |}.

(** ** Boxes on the unit grid *)

Module Box.
Record t := mk { x : Q; y : Q; width : Q; height : Q }.
End Box.

(** A box of the drawing, read back on the unit grid: pixel positions are
    taken from the origin of the drawing area and divided by the scale. *)
Definition unit_box (g : Geom) (px py pw ph : Q) : Box.t :=
  {| Box.x := (px - daX g) / scale g;
     Box.y := (py - daY g) / scale g;
     Box.width := pw / scale g;
     Box.height := ph / scale g |}.

Definition TL (g : Geom) : Box.t := unit_box g (tlX g) (tlY g) (tlW g) (tlH g).
Definition TR (g : Geom) : Box.t := unit_box g (trX g) (trY g) (trW g) (trH g).
Definition BL (g : Geom) : Box.t := unit_box g (blX g) (blY g) (blW g) (blH g).
Definition BR (g : Geom) : Box.t := unit_box g (brX g) (brY g) (brW g) (brH g).

(** ** Reading the drawing *)

Definition has_class (c : string) (e : elem) : bool :=
  match getAttribute "class" e with
  | Some (Str c') => String.eqb c' c
  | _ => false
  end.

(** The line of a spacing arrow: a line with the red end marker (the ticks
    of an arrow share its class but have no marker). *)
Definition is_spacing_arrow (e : elem) : bool :=
  String.eqb (tag e) "line" &&
  match getAttribute "marker-end" e with
  | Some (Str m) => String.eqb m "url(#ah-red-e)"
  | _ => false
  end.

(** The label of a dimension arrow, of either kind. *)
Definition is_dimension_label (e : elem) : bool :=
  String.eqb (tag e) "text" &&
  (has_class "dim-shape-text" e || has_class "dim-space-text" e).

(** The endpoints [(x1, y1, x2, y2)] of a line. *)
Definition line_ends (e : elem) : option (Q * Q * Q * Q) :=
  match getAttribute "x1" e, getAttribute "y1" e, getAttribute "x2" e, getAttribute "y2" e with
  | Some (Num x1), Some (Num y1), Some (Num x2), Some (Num y2) => Some (x1, y1, x2, y2)
  | _, _, _, _ => None
  end.

(** A place where [render] may draw a spacing arrow: the pixel extent of
    the spacing value it measures and the endpoints of the arrow. *)
Record Site := mkSite { extent : Q; ends : Q * Q * Q * Q }.

(** The twelve places, in the order of the source: the left margin, the
    middle gap and the right margin along the top edge of the top row and
    along the bottom edge of the bottom row, then the top margin, the
    middle gap and the bottom margin along the left edge of the left column
    and along the right edge of the right column. *)
Definition spacing_sites (g : Geom) : list Site :=
  [ mkSite (pH0 g) (daX g, tlY g, tlX g, tlY g);
    mkSite (pH1 g) (tlX g + tlW g, tlY g, trX g, tlY g);
    mkSite (pH0 g) (trX g + trW g, tlY g, daX g + daW g, tlY g);
    mkSite (pH0 g) (daX g, blY g + blH g, blX g, blY g + blH g);
    mkSite (pH1 g) (blX g + blW g, blY g + blH g, brX g, blY g + blH g);
    mkSite (pH0 g) (brX g + brW g, blY g + blH g, daX g + daW g, blY g + blH g);
    mkSite (pV0 g) (tlX g, daY g, tlX g, tlY g);
    mkSite (pV1 g) (tlX g, tlY g + tlH g, tlX g, blY g);
    mkSite (pV0 g) (tlX g, blY g + blH g, tlX g, daY g + daH g);
    mkSite (pV0 g) (trX g + trW g, daY g, trX g + trW g, trY g);
    mkSite (pV1 g) (trX g + trW g, trY g + trH g, trX g + trW g, brY g);
    mkSite (pV0 g) (trX g + trW g, brY g + brH g, trX g + trW g, daY g + daH g) ].

(** An element that is neither an arrow nor the label of one. *)
Definition plain (e : elem) : Prop :=
  getAttribute "marker-end" e = None /\ is_dimension_label e = false.

(** The label of an uncalculated drawing. *)
Definition placeholder_label (e : elem) : Prop :=
  is_dimension_label e = true -> textContent e = Some (Lit "?").

(** The signed length of a segment parallel to an axis. *)
Definition span (s : Site) : Q :=
  let '(x1, y1, x2, y2) := ends s in (x2 - x1) + (y2 - y1).

(** The place of the left margin along the top row. *)
Definition left_margin_site (g : Geom) : Site :=
  mkSite (pH0 g) (daX g, tlY g, tlX g, tlY g).

(** A spacing without side margins, as [calculate] finds it when the area
    is exactly as wide as the two columns and their gap. *)
Definition tight_sp : Sp := {| v0 := 2; v1 := 3; h0 := 0; h1 := 2 |}.

(** The line of a shape arrow: a line with the blue end marker. *)
Definition is_shape_arrow (e : elem) : bool :=
  String.eqb (tag e) "line" &&
  match getAttribute "marker-end" e with
  | Some (Str m) => String.eqb m "url(#ah-blue-e)"
  | _ => false
  end.

(** The integers [0], [1], ..., [floor t] (none when [t] is negative). *)
Definition unit_marks (t : Q) : list Z :=
  map Z.of_nat (seq 0 (Z.to_nat (Qfloor t + 1))).

(** The values a dimension label can show: the three dimensions of the
    solid, as the views give them, and the four spacing values. *)
Definition labelled_values (shape : Shape) (sp : Sp) : list Q :=
  [View.H (FRONT shape); View.V (FRONT shape); View.H (RIGHT shape); View.V (TOP shape);
   h0 sp; h1 sp; v0 sp; v1 sp].

(** A change of the size of the wrapper, which the page undergoes before
    the [resize] listener runs. *)
Definition set_wrap (w : Viewport) (p : Page) : Page :=
  {| fields := fields p;
     wrap := w;
     results_display := results_display p;
     result_rows := result_rows p;
     drawing := drawing p |}.

(** A line with given endpoints, up to the equality of numbers. *)
Definition segment (e : elem) (a1 b1 a2 b2 : Q) : Prop :=
  exists p1 q1 p2 q2 : Q,
    line_ends e = Some (p1, q1, p2, q2) /\ p1 == a1 /\ q1 == b1 /\ p2 == a2 /\ q2 == b2.

(** A line whose middle is [(x, y)] and which is perpendicular to the
    direction [(dx, dy)]. *)
Definition tick_at (e : elem) (x y dx dy : Q) : Prop :=
  exists p1 q1 p2 q2 : Q,
    line_ends e = Some (p1, q1, p2, q2) /\
    (p1 + p2) / 2 == x /\ (q1 + q2) / 2 == y /\
    (p2 - p1) * dx + (q2 - q1) * dy == 0.

(** An element whose class is one of [cs]. *)
Definition class_in (cs : list string) (e : elem) : Prop :=
  exists c : string, getAttribute "class" e = Some (Str c) /\ In c cs.

(** The classes of the elements of a dimension arrow. *)
Definition dim_classes : list string :=
  ["dim-space"; "dim-shape"; "dim-space-text"; "dim-shape-text"].

(** The eight places of the shape arrows, in the order of the source: for
    each box the arrow along its top or bottom edge and the arrow along its
    left or right edge, [OFF] px outside the box.  The extent is the side of
    the box the arrow measures. *)
Definition shape_sites (g : Geom) : list Site :=
  [ mkSite (tlW g) (tlX g, tlY g - OFF, tlX g + tlW g, tlY g - OFF);
    mkSite (tlH g) (tlX g - OFF, tlY g, tlX g - OFF, tlY g + tlH g);
    mkSite (trW g) (trX g, trY g - OFF, trX g + trW g, trY g - OFF);
    mkSite (trH g) (trX g + trW g + OFF, trY g, trX g + trW g + OFF, trY g + trH g);
    mkSite (blW g) (blX g, blY g + blH g + OFF, blX g + blW g, blY g + blH g + OFF);
    mkSite (blH g) (blX g - OFF, blY g, blX g - OFF, blY g + blH g);
    mkSite (brW g) (brX g, brY g + brH g + OFF, brX g + brW g, brY g + brH g + OFF);
    mkSite (brH g) (brX g + brW g + OFF, brY g, brX g + brW g + OFF, brY g + brH g) ].

Definition default_page : Page :=
  {| fields := no_fields;
     wrap := mkViewport 600 500;
     results_display := "none";
     result_rows := [];
     drawing := mkDrawing 0 0 [] |}.

(** ** Theorems *)

Lemma getSpacing_length (areaH areaV : Q) (shape : Shape) :
  (2 <= List.length (vert (getSpacing areaH areaV shape)))%nat /\
  (2 <= List.length (hori (getSpacing areaH areaV shape)))%nat.
Proof.
  unfold getSpacing; cbn [vert hori].
  split.
  - destruct (js_rem _ 3 =? 0)%Z; cbn; lia.
  - destruct (js_rem (Math_round (areaH - _)) 3 =? 0)%Z; cbn; lia.
Qed.

(** *** Numbers *)

Lemma Qltb_lt (x y : Q) : Qltb x y = true <-> x < y.
Proof.
  unfold Qltb. rewrite negb_true_iff.
  split; intro Hxy.
  - apply Qnot_le_lt. intro Hle. apply Qle_bool_iff in Hle. congruence.
  - destruct (Qle_bool y x) eqn:E; [|reflexivity].
    apply Qle_bool_iff in E. exfalso. apply (Qlt_not_le _ _ Hxy E).
Qed.

Lemma Qltb_ge (x y : Q) : Qltb x y = false <-> y <= x.
Proof.
  unfold Qltb. rewrite negb_false_iff. apply Qle_bool_iff.
Qed.

Lemma floor_half (r : Z) : Math_floor (inject_Z r / 2) = (r / 2)%Z.
Proof.
  unfold Math_floor, Qdiv, Qmult, Qinv, inject_Z, Qfloor; cbn.
  now rewrite Z.mul_1_r.
Qed.

Lemma third_exact (r : Z) : Z.rem r 3 = 0%Z -> inject_Z r / 3 == inject_Z (r / 3).
Proof.
  intro Hr.
  assert (Hd : (r = 3 * (r / 3))%Z).
  { apply Z.rem_divide in Hr; [|lia]. destruct Hr as [k ->].
    rewrite Z.div_mul by lia. lia. }
  rewrite Hd at 1. rewrite inject_Z_mult. field.
Qed.

(** *** The spacing formula *)

(** C1: when the rounded leftover of an axis is not divisible by 3,
    [getSpacing] returns on that axis the two values [margin; gap] with
    gap = min(3, floor(rounded/2)) and margin = max(0, (rounded - gap)/2);
    the margin is never negative, and 2*margin + gap = rounded whenever the
    clamp of the margin does not fire. *)
Theorem getSpacing_two_part (ax : axis) (areaH areaV : Q) (shape : Shape) :
  js_rem (rounded_on ax areaH areaV shape) 3 <> 0%Z ->
  exists margin gap : Q,
    spacing_on ax (getSpacing areaH areaV shape) = [margin; gap] /\
    gap == inject_Z (Z.min 3 (rounded_on ax areaH areaV shape / 2)) /\
    margin == Qmax 0 ((inject_Z (rounded_on ax areaH areaV shape) - gap) / 2) /\
    0 <= margin /\
    (0 <= (inject_Z (rounded_on ax areaH areaV shape) - gap) / 2 ->
     2 * margin + gap == inject_Z (rounded_on ax areaH areaV shape)).
Proof.
  intro Hrem.
  assert (Hgap : forall r : Z,
             Qmin 3 (inject_Z (Math_floor (inject_Z r / 2))) == inject_Z (Z.min 3 (r / 2))).
  { intro r. rewrite floor_half.
    destruct (Z.min_spec 3 (r / 2)) as [[Hlt ->] | [Hle ->]].
    - apply Q.min_l. change 3 with (inject_Z 3). rewrite <- Zle_Qle. lia.
    - apply Q.min_r. change 3 with (inject_Z 3). rewrite <- Zle_Qle. lia. }
  assert (Hsum : forall r g : Q, 0 <= (r - g) / 2 -> 2 * Qmax 0 ((r - g) / 2) + g == r).
  { intros r g Hpos. rewrite (Q.max_r _ _ Hpos). field. }
  destruct ax; cbn [rounded_on spacing_on] in *;
    unfold getSpacing; cbn [vert hori];
    fold (vertRounded areaV shape); fold (horiRounded areaH shape).
  - destruct (js_rem (vertRounded areaV shape) 3 =? 0)%Z eqn:E;
      [apply Z.eqb_eq in E; contradiction|].
    eexists; eexists; split; [reflexivity|].
    split; [apply Hgap|]. split; [reflexivity|].
    split; [apply Q.le_max_l | apply Hsum].
  - destruct (js_rem (horiRounded areaH shape) 3 =? 0)%Z eqn:E;
      [apply Z.eqb_eq in E; contradiction|].
    eexists; eexists; split; [reflexivity|].
    split; [apply Hgap|]. split; [reflexivity|].
    split; [apply Q.le_max_l | apply Hsum].
Qed.

Lemma getSpacing_two_part_witness :
  exists margin gap : Q,
    spacing_on Vertical (getSpacing 16 16 default_shape) = [margin; gap] /\
    gap == inject_Z (Z.min 3 (rounded_on Vertical 16 16 default_shape / 2)) /\
    margin == Qmax 0 ((inject_Z (rounded_on Vertical 16 16 default_shape) - gap) / 2) /\
    0 <= margin /\
    (0 <= (inject_Z (rounded_on Vertical 16 16 default_shape) - gap) / 2 ->
     2 * margin + gap == inject_Z (rounded_on Vertical 16 16 default_shape)).
Proof.
  apply (getSpacing_two_part Vertical 16 16 default_shape).
  vm_compute. discriminate.
Defined.

(** C2: when the rounded leftover of an axis is divisible by 3,
    [getSpacing] returns on that axis three equal parts, each exactly
    rounded/3, whose sum is rounded; a leftover of 9 gives 3, 3, 3. *)
Theorem getSpacing_three_equal (ax : axis) (areaH areaV : Q) (shape : Shape) :
  js_rem (rounded_on ax areaH areaV shape) 3 = 0%Z ->
  exists part : Q,
    spacing_on ax (getSpacing areaH areaV shape) = [part; part; part] /\
    part == inject_Z (rounded_on ax areaH areaV shape) / 3 /\
    part == inject_Z (rounded_on ax areaH areaV shape / 3) /\
    part + part + part == inject_Z (rounded_on ax areaH areaV shape) /\
    (rounded_on ax areaH areaV shape = 9%Z -> part == 3).
Proof.
  intro Hrem.
  assert (Hsum : forall r : Q, r / 3 + r / 3 + r / 3 == r) by (intro r; field).
  assert (Hnine : forall r : Z, r = 9%Z -> inject_Z r / 3 == 3) by (intros r ->; reflexivity).
  destruct ax; cbn [rounded_on spacing_on] in *;
    unfold getSpacing; cbn [vert hori];
    fold (vertRounded areaV shape); fold (horiRounded areaH shape);
    rewrite Hrem; cbn [Z.eqb];
    (eexists; split; [reflexivity|]);
    (split; [reflexivity|]); (split; [now apply third_exact|]);
    (split; [apply Hsum | apply Hnine]).
Qed.

Lemma getSpacing_three_equal_witness :
  exists part : Q,
    spacing_on Horizontal (getSpacing 20 16 default_shape) = [part; part; part] /\
    part == inject_Z (rounded_on Horizontal 20 16 default_shape) / 3 /\
    part == inject_Z (rounded_on Horizontal 20 16 default_shape / 3) /\
    part + part + part == inject_Z (rounded_on Horizontal 20 16 default_shape) /\
    (rounded_on Horizontal 20 16 default_shape = 9%Z -> part == 3).
Proof.
  apply (getSpacing_three_equal Horizontal 20 16 default_shape).
  vm_compute. reflexivity.
Defined.

(** X5: with room to spare (a rounded leftover that is not negative) no
    value [getSpacing] returns on the axis is negative. *)
Lemma getSpacing_nonneg_of_room (ax : axis) (areaH areaV : Q) (shape : Shape) :
  (0 <= rounded_on ax areaH areaV shape)%Z ->
  Forall (fun x => 0 <= x) (spacing_on ax (getSpacing areaH areaV shape)).
Proof.
  intro Hpos.
  assert (Hthird : forall r : Z, (0 <= r)%Z -> 0 <= inject_Z r / 3).
  { intros r Hr. apply Qle_shift_div_l; [reflexivity|].
    rewrite Qmult_0_l. change 0 with (inject_Z 0). now rewrite <- Zle_Qle. }
  assert (Hgap : forall r : Z, (0 <= r)%Z ->
             0 <= Qmin 3 (inject_Z (Math_floor (inject_Z r / 2)))).
  { intros r Hr. apply Q.min_glb; [discriminate|].
    rewrite floor_half. change 0 with (inject_Z 0). rewrite <- Zle_Qle.
    apply Z.div_pos; lia. }
  destruct ax; cbn [rounded_on spacing_on] in *;
    unfold getSpacing; cbn [vert hori];
    fold (vertRounded areaV shape); fold (horiRounded areaH shape).
  - destruct (js_rem (vertRounded areaV shape) 3 =? 0)%Z;
      repeat constructor; auto using Q.le_max_l.
  - destruct (js_rem (horiRounded areaH shape) 3 =? 0)%Z;
      repeat constructor; auto using Q.le_max_l.
Qed.

(** C3: the invariant that no returned value is ever negative does not
    hold of the code when the area is smaller than the views.  With a
    height of 6 for the area and the default solid the leftover is -3 and
    the three vertical parts are -1; with a height of 8 the leftover is -1,
    the margin is clamped to 0 and the gap is -1. *)
Theorem getSpacing_negative_leftover :
  (exists part : Q,
      vert (getSpacing 16 6 default_shape) = [part; part; part] /\ part == - (1)) /\
  v0 (calculate_sp (mkFields None None None None (Some 6))) < 0 /\
  v1 (calculate_sp (mkFields None None None None (Some 6))) < 0 /\
  (exists margin gap : Q,
      vert (getSpacing 16 8 default_shape) = [margin; gap] /\
      margin == 0 /\ gap == - (1)) /\
  v1 (calculate_sp (mkFields None None None None (Some 8))) < 0.
Proof.
  split; [eexists; split; [vm_compute; reflexivity | reflexivity]|].
  split; [reflexivity|].
  split; [reflexivity|].
  split; [|reflexivity].
  eexists; eexists; split; [vm_compute; reflexivity|].
  split; reflexivity.
Qed.

(** C4: every field that is absent or not numeric falls back to its
    default (6, 4, 5, 16, 16), and for these inputs the computed spacing is
    v0 = 2, v1 = 3, h0 = 1.5, h1 = 2. *)
Theorem default_inputs_spacing :
  in_W (readInputs no_fields) = 6 /\
  in_H (readInputs no_fields) = 4 /\
  in_D (readInputs no_fields) = 5 /\
  in_aH (readInputs no_fields) = 16 /\
  in_aV (readInputs no_fields) = 16 /\
  in_shape (readInputs no_fields) = default_shape /\
  v0 (calculate_sp no_fields) == 2 /\
  v1 (calculate_sp no_fields) == 3 /\
  h0 (calculate_sp no_fields) == 3 # 2 /\
  h1 (calculate_sp no_fields) == 2.
Proof.
  repeat (split; [reflexivity|]). reflexivity.
Qed.

(** *** The scale *)

Lemma avail_ge_200 (client d : Z) : 200 <= avail client d.
Proof. unfold avail. apply Q.le_max_r. Qed.

Lemma xdiv_of_pos (a b : Q) :
  0 < a -> xdiv a b = PosInf \/ xdiv a b = Fin (a / b).
Proof.
  intro Ha. unfold xdiv.
  destruct (Qeq_bool b 0); [|now right].
  left. apply Qltb_lt in Ha. now rewrite Ha.
Qed.

Lemma clamp_bounds (q : Q) : 6 <= Qmax 6 (Qmin q 40) /\ Qmax 6 (Qmin q 40) <= 40.
Proof.
  split; [apply Q.le_max_l|].
  apply Q.max_lub; [discriminate | apply Q.le_min_r].
Qed.

Lemma clamp_id (q m : Q) : q == m -> 6 <= m -> m <= 40 -> Qmax 6 (Qmin q 40) == m.
Proof.
  intros Hq Hlo Hhi. rewrite Hq.
  rewrite (Q.min_l _ _ Hhi). now apply Q.max_r.
Qed.

(** C6: the scale chosen for a grid extent and a viewport is a number
    between 6 and 40, and it is min(scaleH, scaleV) whenever that minimum
    lies between 6 and 40. *)
Theorem fitScale_clamped (wrap : Viewport) (totalUnitsH totalUnitsV : Q) :
  exists s : Q,
    fitScale (avail (clientWidth wrap) 600) (avail (clientHeight wrap) 500)
             totalUnitsH totalUnitsV = Fin s /\
    6 <= s /\ s <= 40 /\
    (forall m : Q,
        xeq (xmin (scaleH (avail (clientWidth wrap) 600) totalUnitsH)
                  (scaleV (avail (clientHeight wrap) 500) totalUnitsV)) (Fin m) ->
        6 <= m -> m <= 40 -> s == m).
Proof.
  pose proof (avail_ge_200 (clientWidth wrap) 600) as HW.
  pose proof (avail_ge_200 (clientHeight wrap) 500) as HH.
  unfold fitScale, scaleH, scaleV, PAD_L, PAD_R, PAD_T, PAD_B.
  set (aW := avail (clientWidth wrap) 600) in *.
  set (aH := avail (clientHeight wrap) 500) in *.
  assert (HnW : 0 < aW - 56 - 56) by lra.
  assert (HnH : 0 < aH - 44 - 44) by lra.
  destruct (xdiv_of_pos _ totalUnitsH HnW) as [-> | ->];
    destruct (xdiv_of_pos _ totalUnitsV HnH) as [-> | ->]; cbn [xmin xmax xeq].
  - exists (Qmax 6 40). split; [reflexivity|].
    split; [discriminate|]. split; [discriminate|]. intros m [].
  - eexists; split; [reflexivity|].
    split; [apply clamp_bounds|]. split; [apply clamp_bounds|].
    intros m Hm. now apply clamp_id.
  - eexists; split; [reflexivity|].
    split; [apply clamp_bounds|]. split; [apply clamp_bounds|].
    intros m Hm. now apply clamp_id.
  - eexists; split; [reflexivity|].
    split; [apply clamp_bounds|]. split; [apply clamp_bounds|].
    intros m Hm. now apply clamp_id.
Qed.

Lemma fitScale_finite (wrap : Viewport) (totalUnitsH totalUnitsV : Q) :
  exists s : Q,
    fitScale (avail (clientWidth wrap) 600) (avail (clientHeight wrap) 500)
             totalUnitsH totalUnitsV = Fin s /\
    6 <= s /\ s <= 40.
Proof.
  pose proof (avail_ge_200 (clientWidth wrap) 600) as HW.
  pose proof (avail_ge_200 (clientHeight wrap) 500) as HH.
  unfold fitScale, scaleH, scaleV, PAD_L, PAD_R, PAD_T, PAD_B.
  destruct (xdiv_of_pos (avail (clientWidth wrap) 600 - 56 - 56) totalUnitsH) as [-> | ->];
    [lra | | ];
    (destruct (xdiv_of_pos (avail (clientHeight wrap) 500 - 44 - 44) totalUnitsV) as [-> | ->];
     [lra | | ]);
    cbn [xmin xmax]; eexists; (split; [reflexivity|]);
    first [ apply clamp_bounds | split; discriminate ].
Qed.

(** The scale [render] works with is the finite value of [fitScale]. *)
Lemma layout_scale (shape : Shape) (sp : Sp) (wrap : Viewport) :
  Fin (scale (layout shape sp wrap)) =
  fitScale (avail (clientWidth wrap) 600) (avail (clientHeight wrap) 500)
           (totalUnitsH (layout shape sp wrap)) (totalUnitsV (layout shape sp wrap)) /\
  6 <= scale (layout shape sp wrap) /\ scale (layout shape sp wrap) <= 40.
Proof.
  cbn [layout scale totalUnitsH totalUnitsV].
  destruct (fitScale_finite wrap
              (h0 sp + View.H (FRONT shape) + h1 sp + View.H (RIGHT shape) + h0 sp)
              (v0 sp + View.V (TOP shape) + v1 sp + View.V (FRONT shape) + v0 sp))
    as (s & -> & Hlo & Hhi).
  cbn [finite]. auto.
Qed.

Lemma fitScale_clamped_witness :
  exists s : Q,
    fitScale (avail 600 600) (avail 500 500) 24 16 = Fin s /\ s == 81 # 4.
Proof.
  destruct (fitScale_clamped (mkViewport 600 500) 24 16) as (s & Hs & _ & _ & Hmin).
  exists s. split; [exact Hs|].
  apply Hmin; vm_compute; try reflexivity; discriminate.
Defined.

(** *** The grid of boxes *)

(** C5: read on the unit grid, the four boxes tile the drawing area.  TL
    sits at (h0, v0) with size (FRONT.H, TOP.V); TR starts h1 after the
    right edge of TL and BL starts v1 below the bottom edge of TL; BR sits
    at (TR.x, BL.y) with size (RIGHT.H, FRONT.V); and on each axis the
    extent of the drawing area is margin + first span + gap + second span
    + the same margin.  The boxes are the four rectangles [render] draws. *)
Theorem boxes_tile_grid (shape : Shape) (sp : Sp) (calculated : bool) (wrap : Viewport) :
  let g := layout shape sp wrap in
  (Box.x (TL g) == h0 sp /\ Box.y (TL g) == v0 sp /\
   Box.width (TL g) == View.H (FRONT shape) /\ Box.height (TL g) == View.V (TOP shape)) /\
  (Box.x (TR g) == Box.x (TL g) + Box.width (TL g) + h1 sp /\ Box.y (TR g) == v0 sp /\
   Box.width (TR g) == View.H (RIGHT shape) /\ Box.height (TR g) == View.V (TOP shape)) /\
  (Box.x (BL g) == h0 sp /\ Box.y (BL g) == Box.y (TL g) + Box.height (TL g) + v1 sp /\
   Box.width (BL g) == View.H (FRONT shape) /\ Box.height (BL g) == View.V (FRONT shape)) /\
  (Box.x (BR g) == Box.x (TR g) /\ Box.y (BR g) == Box.y (BL g) /\
   Box.width (BR g) == View.H (RIGHT shape) /\ Box.height (BR g) == View.V (FRONT shape)) /\
  (totalUnitsH g == h0 sp + Box.width (TL g) + h1 sp + Box.width (TR g) + h0 sp /\
   totalUnitsV g == v0 sp + Box.height (TL g) + v1 sp + Box.height (BL g) + v0 sp /\
   daW g / scale g == totalUnitsH g /\ daH g / scale g == totalUnitsV g /\
   Box.x (TR g) + Box.width (TR g) + h0 sp == totalUnitsH g /\
   Box.y (BL g) + Box.height (BL g) + v0 sp == totalUnitsV g) /\
  (trX g == tlX g + tlW g + pH1 g /\ blY g == tlY g + tlH g + pV1 g /\
   brX g == trX g /\ brY g == blY g /\
   trX g + trW g + pH0 g == daX g + daW g /\
   blY g + blH g + pV0 g == daY g + daH g) /\
  incl (mk "rect" [("x", Num (tlX g)); ("y", Num (tlY g)); ("width", Num (tlW g));
                   ("height", Num (tlH g)); ("class", Str "box")]
        ++ mk "rect" [("x", Num (trX g)); ("y", Num (trY g)); ("width", Num (trW g));
                      ("height", Num (trH g)); ("class", Str "box-accent")]
        ++ mk "rect" [("x", Num (blX g)); ("y", Num (blY g)); ("width", Num (blW g));
                      ("height", Num (blH g)); ("class", Str "box")]
        ++ mk "rect" [("x", Num (brX g)); ("y", Num (brY g)); ("width", Num (brW g));
                      ("height", Num (brH g)); ("class", Str "box")])
       (content (render shape sp calculated wrap)).
Proof.
  intro g.
  destruct (layout_scale shape sp wrap) as (_ & Hlo & _).
  assert (HS : ~ scale g == 0) by (subst g; lra).
  unfold TL, TR, BL, BR, unit_box; cbn [Box.x Box.y Box.width Box.height].
  subst g. revert HS. clear Hlo.
  unfold render; cbn [content].
  cbn [layout scale daX daY daW daH totalUnitsH totalUnitsV
       pH0 pH1 pV0 pV1 tlX tlY tlW tlH trX trY trW trH blX blY blW blH brX brY brW brH].
  set (S := finite _). intro HS.
  repeat match goal with |- _ /\ _ => split end; try (field; exact HS); try ring.
  apply incl_appr, incl_appl. unfold boxes.
  cbn [layout scale daX daY daW daH totalUnitsH totalUnitsV
       pH0 pH1 pV0 pV1 tlX tlY tlW tlH trX trY trW trH blX blY blW blH brX brY brW brH].
  fold S. rewrite !app_assoc. do 4 apply incl_appl. apply incl_refl.
Qed.

(** *** Dimension arrows *)

(** A comparison of the length with a non-negative integer is the
    comparison of the squares. *)
Lemma Math_hypot_lt (dx dy : Q) (c : Z) :
  (0 <= c)%Z ->
  (Math_hypot dx dy < inject_Z c <-> dx * dx + dy * dy < inject_Z (c * c)).
Proof.
  intro Hc. unfold Math_hypot.
  assert (Hs : 0 <= dx * dx + dy * dy) by nra.
  set (s := dx * dx + dy * dy) in *.
  destruct s as [n d]. unfold Qle, Qlt, inject_Z in *; cbn [Qnum Qden] in *.
  rewrite !Z.mul_1_r in *. rewrite Z.mul_0_l in Hs.
  rewrite <- Z.sqrt_lt_square by nia.
  split; intro Hlt; nia.
Qed.

(** The length is exact for the segments [render] draws, which are
    parallel to an axis. *)
Lemma Math_hypot_axis (d : Q) : Math_hypot d 0 == Qabs d /\ Math_hypot 0 d == Qabs d.
Proof.
  destruct d as [n p].
  assert (Hsq : Z.sqrt (n * n * Z.pos p * Z.pos p) = (Z.abs n * Z.pos p)%Z).
  { replace (n * n * Z.pos p * Z.pos p)%Z
      with ((Z.abs n * Z.pos p) * (Z.abs n * Z.pos p))%Z by nia.
    apply Z.sqrt_square. nia. }
  split; unfold Math_hypot, Qeq, Qabs; cbn [Qnum Qden Qmult Qplus];
    rewrite ?Z.mul_1_r, ?Z.mul_0_l, ?Z.add_0_r, ?Z.add_0_l, ?Pos.mul_1_r, ?Pos2Z.inj_mul.
  - replace (n * n * (Z.pos p * Z.pos p))%Z with (n * n * Z.pos p * Z.pos p)%Z by ring.
    rewrite Hsq. ring.
  - rewrite ?Z.mul_1_l.
    replace (n * n * (Z.pos p * Z.pos p))%Z with (n * n * Z.pos p * Z.pos p)%Z by ring.
    rewrite Hsq. ring.
Qed.

(** C8: a horizontal arrow (|dy| < 0.5) that is drawn (length at least 1)
    carries a label.  When its length is at least 14 the label is centred
    (anchor middle) at the midpoint x, with y moved from the midpoint by the
    offset of the options, -8 when none is given; when its length is below
    14 the label is start-anchored 5 px right of the rightmost endpoint, at
    the height of the line. *)
Theorem dimArrow_horizontal_label (x1 y1 x2 y2 : Q) (lbl : label) (type : string) (opts : Opts) :
  Qabs (y2 - y1) < 1 # 2 ->
  1 <= Math_hypot (x2 - x1) (y2 - y1) ->
  exists line tick1 tick2 t : elem,
    dimArrow x1 y1 x2 y2 lbl type opts = [line; tick1; tick2; t] /\
    tag t = "text" /\ textContent t = Some lbl /\
    (MIN_LBL <= Math_hypot (x2 - x1) (y2 - y1) ->
     getAttribute "x" t = Some (Num ((x1 + x2) / 2)) /\
     getAttribute "y" t =
       Some (Num ((y1 + y2) / 2 + match labelOffset opts with Some o => o | None => - (8) end)) /\
     getAttribute "text-anchor" t = Some (Str "middle")) /\
    (Math_hypot (x2 - x1) (y2 - y1) < MIN_LBL ->
     getAttribute "x" t = Some (Num (Qmax x1 x2 + 5)) /\
     getAttribute "y" t = Some (Num ((y1 + y2) / 2)) /\
     getAttribute "text-anchor" t = Some (Str "start")).
Proof.
  intros Hh Hlen.
  apply Qltb_ge in Hlen. apply Qltb_lt in Hh.
  unfold dimArrow; cbv zeta. rewrite Hlen, Hh.
  destruct (Qltb (Math_hypot (x2 - x1) (y2 - y1)) MIN_LBL) eqn:Hshort;
    do 4 eexists; (split; [reflexivity|]); (split; [reflexivity|]);
    (split; [reflexivity|]); split; intro Hc.
  - apply Qltb_lt in Hshort. lra.
  - repeat split.
  - repeat split.
  - apply Qltb_ge in Hshort. lra.
Qed.

Lemma dimArrow_horizontal_label_witness :
  exists line tick1 tick2 t : elem,
    dimArrow 0 0 20 0 (Lit "6.0") "shape" no_opts = [line; tick1; tick2; t] /\
    getAttribute "x" t = Some (Num ((0 + 20) / 2)) /\
    getAttribute "y" t = Some (Num ((0 + 0) / 2 + - (8))) /\
    getAttribute "text-anchor" t = Some (Str "middle").
Proof.
  destruct (dimArrow_horizontal_label 0 0 20 0 (Lit "6.0") "shape" no_opts)
    as (line & tick1 & tick2 & t & Hd & _ & _ & Hlong & _).
  - vm_compute. reflexivity.
  - vm_compute. discriminate.
  - exists line, tick1, tick2, t. split; [exact Hd|].
    apply Hlong. vm_compute. discriminate.
Defined.

(** A drawn arrow that is vertical is not also horizontal. *)
Lemma vertical_not_horizontal (dx dy : Q) :
  Qabs dx < 1 # 2 -> 1 <= Math_hypot dx dy -> Qltb (Qabs dy) (1 # 2) = false.
Proof.
  intros Hv Hlen. apply Qltb_ge. apply Qnot_lt_le. intro Hh.
  apply Qabs_Qlt_condition in Hv. apply Qabs_Qlt_condition in Hh.
  apply (Qle_not_lt _ _ Hlen).
  change 1 with (inject_Z 1). apply Math_hypot_lt; [lia|].
  change (inject_Z (1 * 1)) with 1. nra.
Qed.

(** C9, as the code has it: a vertical arrow (|dx| < 0.5) that is drawn
    carries a label whose x is the midpoint x moved by the offset of the
    options (12 when none is given) to the chosen side: added and
    start-anchored for the right side, subtracted and end-anchored
    otherwise.  Its y is the midpoint height when the length is at least
    14, and 10 px above it when the length is below 14; the side offset and
    the anchor are the same in both cases. *)
Theorem dimArrow_vertical_label (x1 y1 x2 y2 : Q) (lbl : label) (type : string) (opts : Opts) :
  Qabs (x2 - x1) < 1 # 2 ->
  1 <= Math_hypot (x2 - x1) (y2 - y1) ->
  exists line tick1 tick2 t : elem,
    dimArrow x1 y1 x2 y2 lbl type opts = [line; tick1; tick2; t] /\
    tag t = "text" /\ textContent t = Some lbl /\
    getAttribute "x" t =
      Some (Num ((x1 + x2) / 2 +
                 (if side_is_right opts then 1 else - (1)) *
                 match labelOffset opts with Some o => o | None => 12 end)) /\
    getAttribute "text-anchor" t = Some (Str (if side_is_right opts then "start" else "end")) /\
    (MIN_LBL <= Math_hypot (x2 - x1) (y2 - y1) ->
     getAttribute "y" t = Some (Num ((y1 + y2) / 2))) /\
    (Math_hypot (x2 - x1) (y2 - y1) < MIN_LBL ->
     getAttribute "y" t = Some (Num ((y1 + y2) / 2 - 10))).
Proof.
  intros Hv Hlen.
  pose proof (vertical_not_horizontal _ _ Hv Hlen) as Hh.
  apply Qltb_ge in Hlen. apply Qltb_lt in Hv.
  unfold dimArrow; cbv zeta. rewrite Hlen, Hh, Hv.
  destruct (Qltb (Math_hypot (x2 - x1) (y2 - y1)) MIN_LBL) eqn:Hshort;
    do 4 eexists; (split; [reflexivity|]); (split; [reflexivity|]);
    (split; [reflexivity|]); (split; [reflexivity|]); (split; [reflexivity|]);
    split; intro Hc.
  - apply Qltb_lt in Hshort. lra.
  - reflexivity.
  - reflexivity.
  - apply Qltb_ge in Hshort. lra.
Qed.

Lemma dimArrow_vertical_label_witness :
  exists line tick1 tick2 t : elem,
    dimArrow 0 0 0 10 (Lit "4.0") "shape" (mkOpts None (Some "left")) =
      [line; tick1; tick2; t] /\
    getAttribute "x" t = Some (Num ((0 + 0) / 2 + - (1) * 12)) /\
    getAttribute "text-anchor" t = Some (Str "end") /\
    getAttribute "y" t = Some (Num ((0 + 10) / 2 - 10)).
Proof.
  destruct (dimArrow_vertical_label 0 0 0 10 (Lit "4.0") "shape" (mkOpts None (Some "left")))
    as (line & tick1 & tick2 & t & Hd & _ & _ & Hx & Ha & _ & Hshort).
  - vm_compute. reflexivity.
  - vm_compute. discriminate.
  - exists line, tick1, tick2, t. split; [exact Hd|].
    split; [exact Hx|]. split; [exact Ha|].
    apply Hshort. vm_compute. reflexivity.
Defined.

(** C9, as the specification words it, fails: the label of a short vertical arrow
    is not moved from beside the arrow to above the midpoint.  For the
    arrow from (0, 0) to (0, 10) with the label on the left, the label is
    at x = -12, not at the midpoint x = 0. *)
Lemma short_vertical_label_stays_beside :
  ~ (forall (x1 y1 x2 y2 : Q) (lbl : label) (type : string) (opts : Opts),
        Qabs (x2 - x1) < 1 # 2 ->
        1 <= Math_hypot (x2 - x1) (y2 - y1) ->
        Math_hypot (x2 - x1) (y2 - y1) < MIN_LBL ->
        forall t : elem,
          In t (dimArrow x1 y1 x2 y2 lbl type opts) -> tag t = "text" ->
          exists qx qy : Q,
            getAttribute "x" t = Some (Num qx) /\ qx == (x1 + x2) / 2 /\
            getAttribute "y" t = Some (Num qy) /\ qy == (y1 + y2) / 2 - 10).
Proof.
  intro Hclaim.
  pose (arrow := dimArrow 0 0 0 10 (Lit "4.0") "shape" (mkOpts None (Some "left"))).
  destruct (Hclaim 0 0 0 10 (Lit "4.0") "shape" (mkOpts None (Some "left")))
    with (t := nth 3 arrow (createElementNS ""))
    as (qx & qy & Hqx & Hmid & _).
  - vm_compute. reflexivity.
  - vm_compute. discriminate.
  - vm_compute. reflexivity.
  - vm_compute. do 3 right. left. reflexivity.
  - reflexivity.
  - vm_compute in Hqx. injection Hqx as <-.
    vm_compute in Hmid. discriminate.
Qed.

(** *** The grid loops *)

Lemma above_floor (t : Q) (u : Z) : (Qfloor t + 1 <= u)%Z -> Qle_bool (inject_Z u) t = false.
Proof.
  intro Hu. destruct (Qle_bool (inject_Z u) t) eqn:E; [|reflexivity].
  apply Qle_bool_iff in E. exfalso.
  pose proof (Qlt_floor t) as Hlt.
  assert (Hle : inject_Z (Qfloor t + 1) <= inject_Z u) by now rewrite <- Zle_Qle.
  lra.
Qed.

(** The fuel [render] gives to the grid loops is all they can use: with
    more fuel they draw the same lines. *)
Lemma gridV_fuel (g : Geom) (more : nat) :
  gridV (loop_fuel (totalUnitsH g) + more) 0 g = gridV (loop_fuel (totalUnitsH g)) 0 g.
Proof.
  assert (Hgen : forall (n : nat) (u : Z),
             (Qfloor (totalUnitsH g) + 1 - u <= Z.of_nat n)%Z ->
             gridV (n + more) u g = gridV n u g).
  { induction n as [|n IH]; intros u Hu.
    - cbn [Nat.add gridV]. destruct more as [|m]; [reflexivity|].
      cbn [gridV]. rewrite above_floor by lia. reflexivity.
    - cbn [Nat.add gridV]. rewrite IH by lia. reflexivity. }
  apply Hgen. unfold loop_fuel. lia.
Qed.

Lemma gridH_fuel (g : Geom) (more : nat) :
  gridH (loop_fuel (totalUnitsV g) + more) 0 g = gridH (loop_fuel (totalUnitsV g)) 0 g.
Proof.
  assert (Hgen : forall (n : nat) (u : Z),
             (Qfloor (totalUnitsV g) + 1 - u <= Z.of_nat n)%Z ->
             gridH (n + more) u g = gridH n u g).
  { induction n as [|n IH]; intros u Hu.
    - cbn [Nat.add gridH]. destruct more as [|m]; [reflexivity|].
      cbn [gridH]. rewrite above_floor by lia. reflexivity.
    - cbn [Nat.add gridH]. rewrite IH by lia. reflexivity. }
  apply Hgen. unfold loop_fuel. lia.
Qed.

(** *** The elements of a drawing *)

(** What a dimension arrow adds to the drawing, seen through a predicate
    on its elements. *)
Lemma dimArrow_cases (x1 y1 x2 y2 : Q) (lbl : label) (type : string) (opts : Opts) :
  dimArrow x1 y1 x2 y2 lbl type opts = [] \/
  exists line tick1 tick2 t : elem,
    dimArrow x1 y1 x2 y2 lbl type opts = [line; tick1; tick2; t] /\
    tag line = "line" /\ tag tick1 = "line" /\ tag tick2 = "line" /\
    getAttribute "marker-end" tick1 = None /\ getAttribute "marker-end" tick2 = None /\
    getAttribute "marker-end" line =
      Some (Str (if String.eqb type "space" then "url(#ah-red-e)" else "url(#ah-blue-e)")) /\
    line_ends line = Some (x1, y1, x2, y2) /\
    tag t = "text" /\ textContent t = Some lbl.
Proof.
  unfold dimArrow; cbv zeta.
  destruct (Qltb (Math_hypot (x2 - x1) (y2 - y1)) 1); [now left | right].
  destruct (Qltb (Qabs (y2 - y1)) (1 # 2)), (Qltb (Qabs (x2 - x1)) (1 # 2)),
    (Qltb (Math_hypot (x2 - x1) (y2 - y1)) MIN_LBL);
    do 4 eexists; (split; [reflexivity|]); repeat split.
Qed.

Lemma plain_not_arrow (e : elem) : plain e -> is_spacing_arrow e = false.
Proof.
  intros [Hm _]. unfold is_spacing_arrow. rewrite Hm. apply andb_false_r.
Qed.

Lemma svgLine_plain (x1 y1 x2 y2 : Q) (cls : string) : Forall plain (svgLine x1 y1 x2 y2 cls).
Proof. repeat constructor. Qed.

Lemma extDot_plain (x1 y1 x2 y2 : Q) : Forall plain (extDot x1 y1 x2 y2).
Proof. repeat constructor. Qed.

Lemma view_label_plain (x y : Q) (t : string) : Forall plain (view_label x y t).
Proof. repeat constructor. Qed.

Lemma gridV_plain (fuel : nat) (g : Geom) : forall u : Z, Forall plain (gridV fuel u g).
Proof.
  induction fuel as [|n IH]; intro u; cbn [gridV]; [constructor|].
  destruct (Qle_bool _ _); [|constructor].
  destruct (Qltb _ _); [constructor|].
  apply Forall_app; split; [apply svgLine_plain | apply IH].
Qed.

Lemma gridH_plain (fuel : nat) (g : Geom) : forall u : Z, Forall plain (gridH fuel u g).
Proof.
  induction fuel as [|n IH]; intro u; cbn [gridH]; [constructor|].
  destruct (Qle_bool _ _); [|constructor].
  destruct (Qltb _ _); [constructor|].
  apply Forall_app; split; [apply svgLine_plain | apply IH].
Qed.

Lemma draw_area_plain (g : Geom) : Forall plain (draw_area g).
Proof.
  unfold draw_area.
  repeat (apply Forall_app; split);
    auto using gridV_plain, gridH_plain; repeat constructor.
Qed.

Lemma boxes_plain (g : Geom) : Forall plain (boxes g).
Proof.
  unfold boxes.
  repeat (apply Forall_app; split); auto using view_label_plain; repeat constructor.
Qed.

Lemma filter_none {A : Type} (f : A -> bool) (l : list A) :
  Forall (fun a => f a = false) l -> filter f l = [].
Proof.
  induction 1 as [|a l Ha _ IH]; cbn; [reflexivity|]. now rewrite Ha.
Qed.

Lemma shape_dimArrow_no_spacing_arrow (x1 y1 x2 y2 : Q) (lbl : label) (opts : Opts) :
  Forall (fun e => is_spacing_arrow e = false) (dimArrow x1 y1 x2 y2 lbl "shape" opts).
Proof.
  destruct (dimArrow_cases x1 y1 x2 y2 lbl "shape" opts)
    as [-> | (line & tick1 & tick2 & t & -> & _ & _ & _ & H1 & H2 & Hl & _ & Ht & _)];
    [constructor|].
  unfold is_spacing_arrow.
  repeat constructor; rewrite ?H1, ?H2, ?Hl, ?Ht; cbn; auto using andb_false_r.
Qed.

Lemma shape_arrows_no_spacing_arrow (g : Geom) (calculated : bool) :
  Forall (fun e => is_spacing_arrow e = false) (shape_arrows g calculated).
Proof.
  unfold shape_arrows; cbv zeta.
  repeat (apply Forall_app; split);
    first [ apply shape_dimArrow_no_spacing_arrow
          | eapply Forall_impl; [apply plain_not_arrow | apply extDot_plain] ].
Qed.

(** *** Spacing arrows *)

(** An arrow along an axis that spans more than 1 px is drawn. *)
Lemma drawn_horizontal (x1 x2 y p : Q) :
  1 < p -> x2 - x1 == p -> Qltb (Math_hypot (x2 - x1) (y - y)) 1 = false.
Proof.
  intros Hp Hdx. apply Qltb_ge, Qnot_lt_le. intro Hlt.
  change 1 with (inject_Z 1) in Hlt. apply Math_hypot_lt in Hlt; [|lia].
  change (inject_Z (1 * 1)) with 1 in Hlt.
  assert (Hsq : 1 < (x2 - x1) * (x2 - x1)) by (rewrite Hdx; nra).
  assert (H0 : (y - y) * (y - y) == 0) by ring.
  lra.
Qed.

Lemma drawn_vertical (x y1 y2 p : Q) :
  1 < p -> y2 - y1 == p -> Qltb (Math_hypot (x - x) (y2 - y1)) 1 = false.
Proof.
  intros Hp Hdy. apply Qltb_ge, Qnot_lt_le. intro Hlt.
  change 1 with (inject_Z 1) in Hlt. apply Math_hypot_lt in Hlt; [|lia].
  change (inject_Z (1 * 1)) with 1 in Hlt.
  assert (Hsq : 1 < (y2 - y1) * (y2 - y1)) by (rewrite Hdy; nra).
  assert (H0 : (x - x) * (x - x) == 0) by ring.
  lra.
Qed.

(** What one guarded call [if (c) dimArrow(..., 'space', ...)] contributes
    to the spacing arrows of the drawing. *)
Lemma spacing_arrow_at (c : bool) (x1 y1 x2 y2 : Q) (lbl : label) (opts : Opts) :
  (c = true -> Qltb (Math_hypot (x2 - x1) (y2 - y1)) 1 = false) ->
  map line_ends (filter is_spacing_arrow (when c (dimArrow x1 y1 x2 y2 lbl "space" opts))) =
  if c then [Some (x1, y1, x2, y2)] else [].
Proof.
  intro Hdrawn. destruct c; [|reflexivity].
  cbn [when]. unfold dimArrow; cbv zeta. rewrite (Hdrawn eq_refl).
  destruct (Qltb (Qabs (y2 - y1)) (1 # 2)), (Qltb (Qabs (x2 - x1)) (1 # 2)),
    (Qltb (Math_hypot (x2 - x1) (y2 - y1)) MIN_LBL); reflexivity.
Qed.

(** In the layout each spacing arrow spans the scaled value it measures. *)
Lemma layout_spans (shape : Shape) (sp : Sp) (wrap : Viewport) :
  Forall (fun s : Site => span s == extent s) (spacing_sites (layout shape sp wrap)).
Proof.
  unfold spacing_sites, span.
  cbn [layout scale daX daY daW daH totalUnitsH totalUnitsV
       pH0 pH1 pV0 pV1 tlX tlY tlW tlH trX trY trW trH blX blY blW blH brX brY brW brH].
  set (S := finite _).
  repeat (apply Forall_cons; [cbn [ends extent]; ring|]).
  apply Forall_nil.
Qed.

(** C7: the spacing arrows of a drawing are exactly the arrows of the
    places whose spacing value has a scaled extent above 1 px, in the order
    of the source; so the arrow of a place is in the drawing if and only if
    the extent of its spacing value exceeds 1 px, and is left out, with
    nothing drawn in its stead, when the extent is at most 1 px. *)
Theorem spacing_arrows_by_extent (shape : Shape) (sp : Sp) (calculated : bool) (wrap : Viewport) :
  let g := layout shape sp wrap in
  let arrows := map line_ends
                    (filter is_spacing_arrow (content (render shape sp calculated wrap))) in
  arrows = map (fun s => Some (ends s)) (filter (fun s => Qltb 1 (extent s)) (spacing_sites g)) /\
  (forall s : Site, In s (spacing_sites g) -> (In (Some (ends s)) arrows <-> 1 < extent s)) /\
  (forall s : Site, In s (spacing_sites g) -> extent s <= 1 -> ~ In (Some (ends s)) arrows).
Proof.
  intros g arrows.
  assert (Heq : arrows =
                map (fun s => Some (ends s))
                    (filter (fun s => Qltb 1 (extent s)) (spacing_sites g))).
  { subst arrows. unfold render; cbn [content]. fold g.
    rewrite !filter_app.
    rewrite (filter_none _ _ (Forall_impl _ plain_not_arrow (draw_area_plain g))).
    rewrite (filter_none _ _ (Forall_impl _ plain_not_arrow (boxes_plain g))).
    rewrite (filter_none _ _ (shape_arrows_no_spacing_arrow g calculated)).
    cbn [app]. unfold spacing_arrows; cbv zeta.
    rewrite !filter_app, !map_app.
    rewrite !spacing_arrow_at.
    2-13: intro Hc; apply Qltb_lt in Hc;
      first [ apply (drawn_horizontal _ _ _ _ Hc) | apply (drawn_vertical _ _ _ _ Hc) ];
      subst g;
      cbn [layout scale daX daY daW daH totalUnitsH totalUnitsV
           pH0 pH1 pV0 pV1 tlX tlY tlW tlH trX trY trW trH
           blX blY blW blH brX brY brW brH];
      ring.
    unfold spacing_sites. cbn [filter map extent ends].
    destruct (Qltb 1 (pH0 g)), (Qltb 1 (pH1 g)), (Qltb 1 (pV0 g)), (Qltb 1 (pV1 g));
      reflexivity. }
  assert (Hiff : forall s : Site,
             In s (spacing_sites g) -> (In (Some (ends s)) arrows <-> 1 < extent s)).
  { intros s Hs. rewrite Heq. split.
    - intro Hin. apply in_map_iff in Hin. destruct Hin as (s' & Hends & Hs').
      apply filter_In in Hs'. destruct Hs' as [Hs' Hext]. apply Qltb_lt in Hext.
      pose proof (layout_spans shape sp wrap) as Hspans. fold g in Hspans.
      rewrite Forall_forall in Hspans.
      pose proof (Hspans s Hs) as H1. pose proof (Hspans s' Hs') as H2.
      unfold span in H1, H2.
      assert (Hsame : ends s' = ends s) by congruence.
      rewrite Hsame in H2. rewrite <- H1, H2. exact Hext.
    - intro Hext. apply in_map_iff. exists s. split; [reflexivity|].
      apply filter_In. split; [exact Hs | now apply Qltb_lt]. }
  split; [exact Heq|]. split; [exact Hiff|].
  intros s Hs Hle Hin. apply (Hiff s Hs) in Hin. lra.
Qed.

Lemma spacing_arrows_by_extent_witness :
  ~ In (Some (ends (left_margin_site (layout default_shape tight_sp (mkViewport 600 500)))))
       (map line_ends
            (filter is_spacing_arrow
                    (content (render default_shape tight_sp true (mkViewport 600 500))))).
Proof.
  destruct (spacing_arrows_by_extent default_shape tight_sp true (mkViewport 600 500))
    as (_ & _ & Homitted).
  apply Homitted.
  - left. reflexivity.
  - vm_compute. discriminate.
Defined.

(** *** The uncalculated drawing *)

Lemma plain_placeholder (e : elem) : plain e -> placeholder_label e.
Proof. intros [_ Hl] Hd. congruence. Qed.

Lemma dimArrow_placeholder (x1 y1 x2 y2 : Q) (type : string) (opts : Opts) :
  Forall placeholder_label (dimArrow x1 y1 x2 y2 (Lit "?") type opts).
Proof.
  destruct (dimArrow_cases x1 y1 x2 y2 (Lit "?") type opts)
    as [-> | (line & tick1 & tick2 & t & -> & Hl & H1 & H2 & _ & _ & _ & _ & _ & Ht)];
    [constructor|].
  unfold placeholder_label, is_dimension_label.
  repeat (apply Forall_cons; [rewrite ?Hl, ?H1, ?H2; cbn; first [discriminate | intro; exact Ht]|]).
  apply Forall_nil.
Qed.

Lemma when_placeholder (c : bool) (l : list elem) :
  Forall placeholder_label l -> Forall placeholder_label (when c l).
Proof. destruct c; [auto | constructor]. Qed.

Lemma render_placeholder (shape : Shape) (sp : Sp) (wrap : Viewport) :
  Forall placeholder_label (content (render shape sp false wrap)).
Proof.
  unfold render; cbn [content].
  apply Forall_app; split;
    [exact (Forall_impl _ plain_placeholder (draw_area_plain _))|].
  apply Forall_app; split;
    [exact (Forall_impl _ plain_placeholder (boxes_plain _))|].
  apply Forall_app; split.
  - unfold shape_arrows; cbv zeta. unfold fmt.
    repeat (apply Forall_app; split);
      first [ apply dimArrow_placeholder
            | eapply Forall_impl; [apply plain_placeholder | apply extDot_plain] ].
  - unfold spacing_arrows; cbv zeta. unfold fmt.
    repeat (apply Forall_app; split);
      apply when_placeholder, dimArrow_placeholder.
Qed.

(** C10, as the code has it: the initial render, and a resize while the
    results section is still hidden, draw with [calculated = false] and the
    fixed spacing v0 = 2, v1 = 3, h0 = 1.2, h1 = 2.4; in such a drawing the
    label of every dimension arrow is the placeholder "?", never a
    number. *)
Theorem uncalculated_drawing (p : Page) :
  drawing (init p) = render (in_shape (readInputs (fields p))) fallback_sp false (wrap p) /\
  (results_display p = "none" ->
   drawing (on_resize p) =
   render (in_shape (readInputs (fields p))) fallback_sp false (wrap p)) /\
  (v0 fallback_sp == 2 /\ v1 fallback_sp == 3 /\
   h0 fallback_sp == 12 # 10 /\ h1 fallback_sp == 24 # 10) /\
  (forall t : elem,
      In t (content (drawing (init p))) -> is_dimension_label t = true ->
      textContent t = Some (Lit "?")) /\
  (results_display p = "none" ->
   forall t : elem,
     In t (content (drawing (on_resize p))) -> is_dimension_label t = true ->
     textContent t = Some (Lit "?")) /\
  (forall (shape : Shape) (sp : Sp) (viewport : Viewport) (t : elem),
      In t (content (render shape sp false viewport)) -> is_dimension_label t = true ->
      textContent t = Some (Lit "?")).
Proof.
  assert (Hall : forall (shape : Shape) (sp : Sp) (viewport : Viewport) (t : elem),
             In t (content (render shape sp false viewport)) ->
             is_dimension_label t = true -> textContent t = Some (Lit "?")).
  { intros shape sp viewport t Hin.
    pose proof (render_placeholder shape sp viewport) as Hf.
    rewrite Forall_forall in Hf. exact (Hf t Hin). }
  assert (Hresize : results_display p = "none" ->
                    drawing (on_resize p) =
                    render (in_shape (readInputs (fields p))) fallback_sp false (wrap p)).
  { intro Hnone. unfold on_resize. rewrite Hnone. reflexivity. }
  split; [reflexivity|]. split; [exact Hresize|].
  split; [repeat split; reflexivity|].
  split; [apply Hall|]. split; [|exact Hall].
  intros Hnone t. rewrite (Hresize Hnone). apply Hall.
Qed.

Lemma uncalculated_drawing_witness :
  drawing (on_resize default_page) =
  render default_shape fallback_sp false (mkViewport 600 500) /\
  (exists t : elem,
      In t (content (drawing (on_resize default_page))) /\
      is_dimension_label t = true /\ textContent t = Some (Lit "?")).
Proof.
  destruct (uncalculated_drawing default_page) as (_ & Hresize & _ & _ & Hlabels & _).
  split; [exact (Hresize eq_refl)|].
  destruct (find is_dimension_label (content (drawing (on_resize default_page)))) as [t|] eqn:E;
    [|vm_compute in E; discriminate].
  apply find_some in E. destruct E as [Hin Hdim].
  exists t. split; [exact Hin|]. split; [exact Hdim|].
  exact (Hlabels eq_refl t Hin Hdim).
Defined.

(** C10, as the specification words it, fails: the placeholder of an uncalculated
    drawing is not the text "unknown".  The first dimension label of the
    initial drawing of the default page reads "?". *)
Lemma placeholder_is_not_unknown :
  ~ (forall (p : Page) (t : elem),
        In t (content (drawing (init p))) -> is_dimension_label t = true ->
        textContent t = Some (Lit "unknown")).
Proof.
  intro Hclaim.
  destruct (find is_dimension_label (content (drawing (init default_page)))) as [t|] eqn:E;
    [|vm_compute in E; discriminate].
  pose proof (find_some _ _ E) as [Hin Hdim].
  pose proof (Hclaim default_page t Hin Hdim) as Hunknown.
  vm_compute in E. injection E as <-.
  cbn in Hunknown. discriminate.
Qed.

(** * Further properties of the code *)

(** *** Inputs *)

(** X1: whatever the fields hold, no input read is zero; a field that holds
    a number other than zero is read as it is, negative numbers included,
    and a field that holds zero is read as its default, like a field that
    holds no number. *)
Theorem readInputs_nonzero (f : Fields) :
  (~ in_W (readInputs f) == 0 /\ ~ in_H (readInputs f) == 0 /\
   ~ in_D (readInputs f) == 0 /\ ~ in_aH (readInputs f) == 0 /\
   ~ in_aV (readInputs f) == 0) /\
  (forall q : Q, ~ q == 0 ->
     (f_width f = Some q -> in_W (readInputs f) = q) /\
     (f_height f = Some q -> in_H (readInputs f) = q) /\
     (f_depth f = Some q -> in_D (readInputs f) = q) /\
     (f_areaH f = Some q -> in_aH (readInputs f) = q) /\
     (f_areaV f = Some q -> in_aV (readInputs f) = q)) /\
  (forall q : Q, q == 0 ->
     (f_width f = Some q -> in_W (readInputs f) = 6) /\
     (f_height f = Some q -> in_H (readInputs f) = 4) /\
     (f_depth f = Some q -> in_D (readInputs f) = 5) /\
     (f_areaH f = Some q -> in_aH (readInputs f) = 16) /\
     (f_areaV f = Some q -> in_aV (readInputs f) = 16)).
Proof.
  assert (Hzero : forall (q d : Q), q == 0 -> or_default (Some q) d = d).
  { intros q d Hq. cbn [or_default]. apply Qeq_bool_iff in Hq. now rewrite Hq. }
  assert (Hnz : forall (x : option Q) (d : Q), ~ d == 0 -> ~ or_default x d == 0).
  { intros [q|] d Hd; cbn [or_default]; [|exact Hd].
    destruct (Qeq_bool q 0) eqn:E; [exact Hd|].
    now apply Qeq_bool_neq. }
  assert (Hkeep : forall (q d : Q), ~ q == 0 -> or_default (Some q) d = q).
  { intros q d Hq. cbn [or_default].
    destruct (Qeq_bool q 0) eqn:E; [|reflexivity].
    apply Qeq_bool_iff in E. contradiction. }
  split.
  - cbn [readInputs in_W in_H in_D in_aH in_aV].
    repeat split; apply Hnz; discriminate.
  - split; intros q Hq; cbn [readInputs in_W in_H in_D in_aH in_aV].
    + repeat split; intros ->; now apply Hkeep.
    + repeat split; intros ->; now apply Hzero.
Qed.

Lemma readInputs_nonzero_witness :
  in_W (readInputs (mkFields (Some (- (3))) None None None None)) = - (3).
Proof.
  destruct (readInputs_nonzero (mkFields (Some (- (3))) None None None None))
    as (_ & Hkeep & _).
  destruct (Hkeep (- (3))) as [Hw _]; [discriminate|].
  apply Hw. reflexivity.
Defined.

(** *** More on the spacing formula *)

Lemma Math_round_near (x : Q) :
  x - (1 # 2) < inject_Z (Math_round x) /\ inject_Z (Math_round x) <= x + (1 # 2).
Proof.
  unfold Math_round.
  pose proof (Qfloor_le (x + (1 # 2))) as Hle.
  pose proof (Qlt_floor (x + (1 # 2))) as Hlt.
  rewrite inject_Z_plus in Hlt. change (inject_Z 1) with 1 in Hlt.
  split; lra.
Qed.

(** The values of one axis, for a rounded leftover [r]. *)
Lemma axis_values (ax : axis) (areaH areaV : Q) (shape : Shape) :
  let r := rounded_on ax areaH areaV shape in
  spacing_on ax (getSpacing areaH areaV shape) =
  if (js_rem r 3 =? 0)%Z then [inject_Z r / 3; inject_Z r / 3; inject_Z r / 3]
  else [Qmax 0 ((inject_Z r - Qmin 3 (inject_Z (Math_floor (inject_Z r / 2)))) / 2);
        Qmin 3 (inject_Z (Math_floor (inject_Z r / 2)))].
Proof. destruct ax; reflexivity. Qed.

Lemma gap_is_integer (r : Z) :
  Qmin 3 (inject_Z (Math_floor (inject_Z r / 2))) == inject_Z (Z.min 3 (r / 2)).
Proof.
  rewrite floor_half.
  destruct (Z.min_spec 3 (r / 2)) as [[Hlt ->] | [Hle ->]].
  - apply Q.min_l. change 3 with (inject_Z 3). rewrite <- Zle_Qle. lia.
  - apply Q.min_r. change 3 with (inject_Z 3). rewrite <- Zle_Qle. lia.
Qed.

(** X2: every value [getSpacing] returns is a whole or a half number of
    units: twice the value is an integer. *)
Theorem getSpacing_half_units (ax : axis) (areaH areaV : Q) (shape : Shape) :
  Forall (fun v : Q => exists k : Z, 2 * v == inject_Z k)
         (spacing_on ax (getSpacing areaH areaV shape)).
Proof.
  rewrite axis_values. cbv zeta.
  set (r := rounded_on ax areaH areaV shape).
  destruct (js_rem r 3 =? 0)%Z eqn:E.
  - apply Z.eqb_eq in E.
    assert (Hthird : exists k : Z, 2 * (inject_Z r / 3) == inject_Z k).
    { exists (2 * (r / 3))%Z. rewrite (third_exact r E), inject_Z_mult. reflexivity. }
    repeat constructor; exact Hthird.
  - pose proof (gap_is_integer r) as Hgap.
    set (gap := Qmin 3 (inject_Z (Math_floor (inject_Z r / 2)))) in *.
    apply Forall_cons; [|apply Forall_cons; [|apply Forall_nil]].
    + destruct (Q.max_spec 0 ((inject_Z r - gap) / 2)) as [[_ Hmax] | [_ Hmax]].
      * exists (r - Z.min 3 (r / 2))%Z.
        rewrite Hmax. unfold Zminus. rewrite inject_Z_plus, inject_Z_opp, <- Hgap. field.
      * exists 0%Z. rewrite Hmax. reflexivity.
    + exists (2 * Z.min 3 (r / 2))%Z. rewrite inject_Z_mult, Hgap. reflexivity.
Qed.

(** The entries [calculate] reads are the first two of each array. *)
Lemma calculate_sp_entries (f : Fields) :
  let i := readInputs f in
  let sp := getSpacing (in_aH i) (in_aV i) (in_shape i) in
  v0 (calculate_sp f) = at_index (spacing_on Vertical sp) 0 /\
  v1 (calculate_sp f) = at_index (spacing_on Vertical sp) 1 /\
  h0 (calculate_sp f) = at_index (spacing_on Horizontal sp) 0 /\
  h1 (calculate_sp f) = at_index (spacing_on Horizontal sp) 1.
Proof.
  intros i sp. unfold calculate_sp. fold i. fold sp. cbn [v0 v1 h0 h1 spacing_on].
  destruct (getSpacing_length (in_aH i) (in_aV i) (in_shape i)) as [Hv Hh].
  fold sp in Hv, Hh.
  assert (Ev : (1 <? List.length (vert sp))%nat = true) by (apply Nat.ltb_lt; lia).
  assert (Eh : (1 <? List.length (hori sp))%nat = true) by (apply Nat.ltb_lt; lia).
  rewrite Ev, Eh. auto.
Qed.

(** With a leftover that is not negative, margin + gap + margin is the
    leftover. *)
Lemma axis_sum (ax : axis) (areaH areaV : Q) (shape : Shape) :
  (0 <= rounded_on ax areaH areaV shape)%Z ->
  at_index (spacing_on ax (getSpacing areaH areaV shape)) 0 +
  at_index (spacing_on ax (getSpacing areaH areaV shape)) 1 +
  at_index (spacing_on ax (getSpacing areaH areaV shape)) 0 ==
  inject_Z (rounded_on ax areaH areaV shape).
Proof.
  intro Hr. rewrite axis_values. cbv zeta.
  set (r := rounded_on ax areaH areaV shape) in *.
  destruct (js_rem r 3 =? 0)%Z; cbn [at_index nth]; [field|].
  pose proof (gap_is_integer r) as Hgap.
  set (gap := Qmin 3 (inject_Z (Math_floor (inject_Z r / 2)))) in *.
  assert (Hle : gap <= inject_Z r).
  { rewrite Hgap. rewrite <- Zle_Qle.
    assert (r / 2 <= r)%Z by (apply Z.div_le_upper_bound; lia). lia. }
  rewrite Q.max_r; [field|].
  apply Qle_shift_div_l; [reflexivity|]. lra.
Qed.

(** X3: when the leftover of an axis is not negative, the grid [calculate]
    draws is as long on that axis as the two views and the rounded leftover
    together, so it differs from the requested area by at most half a
    unit. *)
Theorem calculate_fills_area (f : Fields) (wrap : Viewport) :
  let i := readInputs f in
  let g := layout (in_shape i) (calculate_sp f) wrap in
  ((0 <= horiRounded (in_aH i) (in_shape i))%Z ->
   totalUnitsH g == in_W i + in_D i + inject_Z (horiRounded (in_aH i) (in_shape i)) /\
   in_aH i - (1 # 2) < totalUnitsH g /\ totalUnitsH g <= in_aH i + (1 # 2)) /\
  ((0 <= vertRounded (in_aV i) (in_shape i))%Z ->
   totalUnitsV g == in_D i + in_H i + inject_Z (vertRounded (in_aV i) (in_shape i)) /\
   in_aV i - (1 # 2) < totalUnitsV g /\ totalUnitsV g <= in_aV i + (1 # 2)).
Proof.
  intros i g.
  destruct (calculate_sp_entries f) as (Hv0 & Hv1 & Hh0 & Hh1). fold i in Hv0, Hv1, Hh0, Hh1.
  split; intro Hr.
  - pose proof (axis_sum Horizontal (in_aH i) (in_aV i) (in_shape i) Hr) as Hsum.
    rewrite <- Hh0, <- Hh1 in Hsum. cbn [rounded_on] in Hsum.
    assert (Htot : totalUnitsH g ==
                   in_W i + in_D i + inject_Z (horiRounded (in_aH i) (in_shape i))).
    { subst g. cbn [layout totalUnitsH]. rewrite <- Hsum.
      subst i. cbn [readInputs in_shape in_W in_D FRONT RIGHT View.H]. ring. }
    split; [exact Htot|]. rewrite Htot.
    pose proof (Math_round_near (in_aH i - (View.H (FRONT (in_shape i)) +
                                             View.H (RIGHT (in_shape i))))) as Hnear.
    fold (horiRounded (in_aH i) (in_shape i)) in Hnear.
    assert (HW : View.H (FRONT (in_shape i)) == in_W i) by reflexivity.
    assert (HD : View.H (RIGHT (in_shape i)) == in_D i) by reflexivity.
    lra.
  - pose proof (axis_sum Vertical (in_aH i) (in_aV i) (in_shape i) Hr) as Hsum.
    rewrite <- Hv0, <- Hv1 in Hsum. cbn [rounded_on] in Hsum.
    assert (Htot : totalUnitsV g ==
                   in_D i + in_H i + inject_Z (vertRounded (in_aV i) (in_shape i))).
    { subst g. cbn [layout totalUnitsV]. rewrite <- Hsum.
      subst i. cbn [readInputs in_shape in_H in_D FRONT TOP View.V]. ring. }
    split; [exact Htot|]. rewrite Htot.
    pose proof (Math_round_near (in_aV i - (View.V (FRONT (in_shape i)) +
                                             View.V (TOP (in_shape i))))) as Hnear.
    fold (vertRounded (in_aV i) (in_shape i)) in Hnear.
    assert (HH : View.V (FRONT (in_shape i)) == in_H i) by reflexivity.
    assert (HD : View.V (TOP (in_shape i)) == in_D i) by reflexivity.
    lra.
Qed.

Lemma calculate_fills_area_witness :
  totalUnitsH (layout default_shape (calculate_sp no_fields) (mkViewport 600 500)) == 16 /\
  totalUnitsV (layout default_shape (calculate_sp no_fields) (mkViewport 600 500)) == 16.
Proof.
  destruct (calculate_fills_area no_fields (mkViewport 600 500)) as [Hh Hv].
  destruct Hh as [Hh _]; [vm_compute; discriminate|].
  destruct Hv as [Hv _]; [vm_compute; discriminate|].
  split; [rewrite Hh | rewrite Hv]; reflexivity.
Defined.

(** X4: [calculate] always finds the margin in the first entry and the gap
    in the second entry of an array of [getSpacing], and the third entry,
    when there is one, is the margin again: drawing the far margin with the
    first entry loses nothing. *)
Theorem calculate_reads_margin_and_gap (f : Fields) :
  let i := readInputs f in
  let sp := getSpacing (in_aH i) (in_aV i) (in_shape i) in
  nth_error (vert sp) 0 = Some (v0 (calculate_sp f)) /\
  nth_error (vert sp) 1 = Some (v1 (calculate_sp f)) /\
  nth_error (hori sp) 0 = Some (h0 (calculate_sp f)) /\
  nth_error (hori sp) 1 = Some (h1 (calculate_sp f)) /\
  (forall third : Q, nth_error (vert sp) 2 = Some third -> third = v0 (calculate_sp f)) /\
  (forall third : Q, nth_error (hori sp) 2 = Some third -> third = h0 (calculate_sp f)) /\
  (List.length (vert sp) <= 3)%nat /\ (List.length (hori sp) <= 3)%nat.
Proof.
  intros i sp.
  destruct (calculate_sp_entries f) as (-> & -> & -> & ->). fold i. fold sp.
  pose proof (axis_values Vertical (in_aH i) (in_aV i) (in_shape i)) as Hv.
  pose proof (axis_values Horizontal (in_aH i) (in_aV i) (in_shape i)) as Hh.
  cbv zeta in Hv, Hh. fold sp in Hv, Hh. cbn [spacing_on] in *.
  rewrite Hv, Hh.
  destruct (js_rem (rounded_on Vertical (in_aH i) (in_aV i) (in_shape i)) 3 =? 0)%Z,
    (js_rem (rounded_on Horizontal (in_aH i) (in_aV i) (in_shape i)) 3 =? 0)%Z;
    cbn [nth_error at_index nth List.length];
    repeat split; try lia; intros third Ht; congruence.
Qed.

Lemma calculate_reads_margin_and_gap_witness :
  exists third : Q,
    nth_error (hori (getSpacing 20 16 default_shape)) 2 = Some third /\
    third = h0 (calculate_sp (mkFields None None None (Some 20) None)).
Proof.
  destruct (calculate_reads_margin_and_gap (mkFields None None None (Some 20) None))
    as (_ & _ & _ & _ & _ & Hthird & _).
  eexists. split; [reflexivity|].
  apply Hthird. reflexivity.
Defined.

Lemma getSpacing_nonneg_of_room_witness :
  Forall (fun x => 0 <= x) (spacing_on Vertical (getSpacing 16 16 default_shape)).
Proof.
  apply (getSpacing_nonneg_of_room Vertical 16 16 default_shape).
  vm_compute. discriminate.
Defined.

(** *** Elements and their attributes *)

Lemma get_set_same (k : string) (v : attr) (l : list (string * attr)) :
  get_attr k (set_attr k v l) = Some v.
Proof.
  induction l as [|[k' v'] l IH]; cbn [set_attr get_attr].
  - now rewrite String.eqb_refl.
  - destruct (String.eqb k' k) eqn:E; cbn [get_attr].
    + now rewrite String.eqb_refl.
    + rewrite E. exact IH.
Qed.

Lemma get_set_other (k k' : string) (v : attr) (l : list (string * attr)) :
  k' <> k -> get_attr k (set_attr k' v l) = get_attr k l.
Proof.
  intro Hne. induction l as [|[k0 v0] l IH]; cbn [set_attr get_attr].
  - apply String.eqb_neq in Hne. now rewrite Hne.
  - destruct (String.eqb k0 k') eqn:E; cbn [get_attr].
    + apply String.eqb_eq in E. subst k0.
      apply String.eqb_neq in Hne. now rewrite Hne.
    + now rewrite IH.
Qed.

Lemma set_attr_fresh (k : string) (v : attr) (l : list (string * attr)) :
  ~ In k (map fst l) -> set_attr k v l = l ++ [(k, v)].
Proof.
  induction l as [|[k' v'] l IH]; intro Hfresh; cbn [set_attr app]; [reflexivity|].
  cbn [map fst In] in Hfresh.
  destruct (String.eqb k' k) eqn:E.
  - apply String.eqb_eq in E. tauto.
  - rewrite IH by tauto. reflexivity.
Qed.

Lemma fold_setAttribute (l : list (string * attr)) :
  forall e : elem,
    let e' := fold_left (fun e kv => setAttribute (fst kv) (snd kv) e) l e in
    tag e' = tag e /\ textContent e' = textContent e /\
    (forall k : string,
        getAttribute k e' =
        match get_attr k (rev l) with Some v => Some v | None => getAttribute k e end) /\
    (NoDup (map fst l) -> (forall k, In k (map fst l) -> ~ In k (map fst (attrs e))) ->
     attrs e' = attrs e ++ l).
Proof.
  induction l as [|[k0 v0] l IH]; intro e; cbn [fold_left].
  - cbn [rev get_attr]. repeat split; auto. intros _ _. now rewrite app_nil_r.
  - destruct (IH (setAttribute k0 v0 e)) as (Htag & Htext & Hget & Hall).
    cbv zeta in *. cbn [fst snd] in *.
    split; [exact Htag|]. split; [exact Htext|]. split.
    + intro k. rewrite Hget. cbn [rev].
      assert (Happ : forall (a b : list (string * attr)),
                 get_attr k (a ++ b) =
                 match get_attr k a with Some v => Some v | None => get_attr k b end).
      { induction a as [|[ka va] a IHa]; intro b; cbn [app get_attr]; [reflexivity|].
        destruct (String.eqb ka k); [reflexivity | apply IHa]. }
      rewrite Happ. destruct (get_attr k (rev l)); [reflexivity|].
      unfold getAttribute, setAttribute; cbn [attrs get_attr].
      destruct (String.eqb k0 k) eqn:E.
      * apply String.eqb_eq in E. subst k0. apply get_set_same.
      * apply String.eqb_neq in E. now apply get_set_other.
    + intros Hnodup Hfresh. cbn [map fst] in Hnodup, Hfresh.
      inversion Hnodup as [|? ? Hnotin Hnodup']; subst.
      assert (Hk0 : ~ In k0 (map fst (attrs e))) by (apply Hfresh; now left).
      rewrite Hall; [| exact Hnodup' |].
      * cbn [setAttribute attrs]. rewrite set_attr_fresh by exact Hk0.
        now rewrite <- app_assoc.
      * intros k Hk. cbn [setAttribute attrs]. rewrite set_attr_fresh by exact Hk0.
        rewrite map_app, in_app_iff. cbn [map fst In].
        intros [Hin | [<- | []]]; [|contradiction].
        apply (Hfresh k); [now right | exact Hin].
Qed.

(** X6: [mk] adds one element, with the given tag and no text, on which
    every attribute reads back as the value given for it last; when no name
    is given twice the attributes of the element are the given ones, in the
    given order. *)
Theorem mk_attributes (tg : string) (l : list (string * attr)) :
  exists e : elem,
    mk tg l = [e] /\ tag e = tg /\ textContent e = None /\
    (forall k : string, getAttribute k e = get_attr k (rev l)) /\
    (NoDup (map fst l) -> attrs e = l).
Proof.
  unfold mk. eexists. split; [reflexivity|].
  destruct (fold_setAttribute l (createElementNS tg)) as (Htag & Htext & Hget & Hall).
  cbv zeta in *.
  split; [exact Htag|]. split; [exact Htext|]. split.
  - intro k. rewrite Hget. destruct (get_attr k (rev l)); reflexivity.
  - intro Hnodup. rewrite Hall; [reflexivity | exact Hnodup | intros k _ []].
Qed.

Lemma mk_attributes_witness :
  exists e : elem,
    mk "rect" [("x", Num 1); ("y", Num 2); ("class", Str "box")] = [e] /\
    attrs e = [("x", Num 1); ("y", Num 2); ("class", Str "box")].
Proof.
  destruct (mk_attributes "rect" [("x", Num 1); ("y", Num 2); ("class", Str "box")])
    as (e & He & _ & _ & _ & Hall).
  exists e. split; [exact He|].
  apply Hall. repeat constructor; cbn; intuition discriminate.
Defined.

(** *** More on dimension arrows *)

Lemma Math_hypot_ltb (dx dy : Q) :
  Qltb (Math_hypot dx dy) 1 = Qltb (dx * dx + dy * dy) 1.
Proof.
  pose proof (Math_hypot_lt dx dy 1 ltac:(lia)) as Hiff.
  change (inject_Z 1) with 1 in Hiff. change (inject_Z (1 * 1)) with 1 in Hiff.
  destruct (Qltb (dx * dx + dy * dy) 1) eqn:E.
  - apply Qltb_lt. apply Hiff. now apply Qltb_lt.
  - apply Qltb_ge. apply Qltb_ge in E. apply Qnot_lt_le. intro Hlt.
    apply Hiff in Hlt. lra.
Qed.

(** X7: an arrow whose length is below 1 px draws nothing at all, neither
    line nor ticks nor label; any other arrow draws exactly four elements.
    The length is compared through its square. *)
Theorem dimArrow_skips_short (x1 y1 x2 y2 : Q) (lbl : label) (type : string) (opts : Opts) :
  (dimArrow x1 y1 x2 y2 lbl type opts = [] <->
   (x2 - x1) * (x2 - x1) + (y2 - y1) * (y2 - y1) < 1) /\
  List.length (dimArrow x1 y1 x2 y2 lbl type opts) =
  if Qltb ((x2 - x1) * (x2 - x1) + (y2 - y1) * (y2 - y1)) 1 then 0%nat else 4%nat.
Proof.
  rewrite <- Math_hypot_ltb, <- Qltb_lt, <- Math_hypot_ltb.
  unfold dimArrow; cbv zeta.
  destruct (Qltb (Math_hypot (x2 - x1) (y2 - y1)) 1); split; try reflexivity.
  - tauto.
  - split; discriminate.
Qed.

(** X8: the two ticks of a drawn arrow are lines of the class of the arrow,
    without markers; each has an endpoint of the arrow as its middle and is
    perpendicular to the arrow. *)
Theorem dimArrow_ticks (x1 y1 x2 y2 : Q) (lbl : label) (type : string) (opts : Opts) :
  1 <= Math_hypot (x2 - x1) (y2 - y1) ->
  exists line tick1 tick2 t : elem,
    dimArrow x1 y1 x2 y2 lbl type opts = [line; tick1; tick2; t] /\
    tick_at tick1 x1 y1 (x2 - x1) (y2 - y1) /\
    tick_at tick2 x2 y2 (x2 - x1) (y2 - y1) /\
    getAttribute "class" tick1 = getAttribute "class" line /\
    getAttribute "class" tick2 = getAttribute "class" line /\
    getAttribute "marker-end" tick1 = None /\ getAttribute "marker-start" tick1 = None /\
    getAttribute "marker-end" tick2 = None /\ getAttribute "marker-start" tick2 = None.
Proof.
  intro Hlen.
  assert (Hnz : ~ Math_hypot (x2 - x1) (y2 - y1) == 0) by lra.
  apply Qltb_ge in Hlen.
  unfold dimArrow; cbv zeta. rewrite Hlen.
  do 4 eexists. split; [reflexivity|].
  split; [|split].
  - eexists; eexists; eexists; eexists. split; [reflexivity|].
    unfold TICK. repeat split; field; exact Hnz.
  - eexists; eexists; eexists; eexists. split; [reflexivity|].
    unfold TICK. repeat split; field; exact Hnz.
  - repeat split.
Qed.

Lemma dimArrow_ticks_witness :
  exists line tick1 tick2 t : elem,
    dimArrow 0 0 3 4 (Lit "5.0") "shape" no_opts = [line; tick1; tick2; t] /\
    tick_at tick1 0 0 (3 - 0) (4 - 0) /\ tick_at tick2 3 4 (3 - 0) (4 - 0).
Proof.
  destruct (dimArrow_ticks 0 0 3 4 (Lit "5.0") "shape" no_opts)
    as (line & tick1 & tick2 & t & Hd & H1 & H2 & _).
  - vm_compute. discriminate.
  - exists line, tick1, tick2, t. auto.
Defined.

(** The length of a segment along an axis is exact, however the zero
    difference is written. *)
Lemma Math_hypot_along (d z : Q) :
  z == 0 -> Math_hypot d z == Qabs d /\ Math_hypot z d == Qabs d.
Proof.
  destruct d as [n p], z as [m e]. intro Hz.
  unfold Qeq in Hz; cbn [Qnum Qden] in Hz. rewrite Z.mul_1_r, Z.mul_0_l in Hz. subst m.
  assert (Hsq : forall k : Z,
             k = (n * n * (Z.pos e * Z.pos e) * (Z.pos p * Z.pos p * (Z.pos e * Z.pos e)))%Z ->
             Z.sqrt k = (Z.abs n * Z.pos p * (Z.pos e * Z.pos e))%Z).
  { intros k ->.
    replace (n * n * (Z.pos e * Z.pos e) * (Z.pos p * Z.pos p * (Z.pos e * Z.pos e)))%Z
      with ((Z.abs n * Z.pos p * (Z.pos e * Z.pos e)) *
            (Z.abs n * Z.pos p * (Z.pos e * Z.pos e)))%Z by nia.
    apply Z.sqrt_square. nia. }
  split; unfold Math_hypot, Qeq, Qabs; cbn [Qnum Qden Qmult Qplus];
    rewrite ?Pos2Z.inj_mul; rewrite Hsq; try nia; ring.
Qed.

(** X9: on an arrow drawn from left to right along a horizontal line the
    ticks are the vertical segments that reach 5 px above and below its
    endpoints; on an arrow drawn downwards along a vertical line they are
    the horizontal segments that reach 5 px left and right of them. *)
Theorem dimArrow_axis_ticks (x1 y1 x2 y2 : Q) (lbl : label) (type : string) (opts : Opts) :
  (y2 - y1 == 0 -> 1 <= x2 - x1 ->
   exists line tick1 tick2 t : elem,
     dimArrow x1 y1 x2 y2 lbl type opts = [line; tick1; tick2; t] /\
     segment tick1 x1 (y1 + 5) x1 (y1 - 5) /\
     segment tick2 x2 (y2 + 5) x2 (y2 - 5)) /\
  (x2 - x1 == 0 -> 1 <= y2 - y1 ->
   exists line tick1 tick2 t : elem,
     dimArrow x1 y1 x2 y2 lbl type opts = [line; tick1; tick2; t] /\
     segment tick1 (x1 - 5) y1 (x1 + 5) y1 /\
     segment tick2 (x2 - 5) y2 (x2 + 5) y2).
Proof.
  split; intros Hzero Hlong.
  - destruct (Math_hypot_along (x2 - x1) (y2 - y1) Hzero) as [Hlen _].
    rewrite Qabs_pos in Hlen by lra.
    assert (Hdrawn : Qltb (Math_hypot (x2 - x1) (y2 - y1)) 1 = false)
      by (apply Qltb_ge; lra).
    unfold dimArrow; cbv zeta. rewrite Hdrawn.
    set (len := Math_hypot (x2 - x1) (y2 - y1)) in *.
    assert (Hnz : ~ len == 0) by lra.
    assert (Hpx : - (y2 - y1) / len == 0) by (rewrite Hzero; field; exact Hnz).
    assert (Hpy : (x2 - x1) / len == 1) by (rewrite <- Hlen; field; exact Hnz).
    do 4 eexists. split; [reflexivity|].
    split; (do 4 eexists; split; [reflexivity|]);
      rewrite Hpx, Hpy; unfold TICK; repeat split; ring.
  - destruct (Math_hypot_along (y2 - y1) (x2 - x1) Hzero) as [_ Hlen].
    rewrite Qabs_pos in Hlen by lra.
    assert (Hdrawn : Qltb (Math_hypot (x2 - x1) (y2 - y1)) 1 = false)
      by (apply Qltb_ge; lra).
    unfold dimArrow; cbv zeta. rewrite Hdrawn.
    set (len := Math_hypot (x2 - x1) (y2 - y1)) in *.
    assert (Hnz : ~ len == 0) by lra.
    assert (Hpx : - (y2 - y1) / len == - (1)) by (rewrite <- Hlen; field; exact Hnz).
    assert (Hpy : (x2 - x1) / len == 0) by (rewrite Hzero; field; exact Hnz).
    do 4 eexists. split; [reflexivity|].
    split; (do 4 eexists; split; [reflexivity|]);
      rewrite Hpx, Hpy; unfold TICK; repeat split; ring.
Qed.

Lemma dimArrow_axis_ticks_witness :
  (exists line tick1 tick2 t : elem,
      dimArrow 0 7 20 7 (Lit "6.0") "shape" no_opts = [line; tick1; tick2; t] /\
      segment tick1 0 (7 + 5) 0 (7 - 5) /\ segment tick2 20 (7 + 5) 20 (7 - 5)) /\
  (exists line tick1 tick2 t : elem,
      dimArrow 3 0 3 20 (Lit "4.0") "space" no_opts = [line; tick1; tick2; t] /\
      segment tick1 (3 - 5) 0 (3 + 5) 0 /\ segment tick2 (3 - 5) 20 (3 + 5) 20).
Proof.
  split.
  - destruct (dimArrow_axis_ticks 0 7 20 7 (Lit "6.0") "shape" no_opts) as [Hh _].
    apply Hh; [reflexivity | discriminate].
  - destruct (dimArrow_axis_ticks 3 0 3 20 (Lit "4.0") "space" no_opts) as [_ Hv].
    apply Hv; [reflexivity | discriminate].
Defined.

(** X10: a drawn arrow that is neither horizontal nor vertical (|dx| and
    |dy| both at least 0.5) still gets its label element, with the text and
    the class, but without a position and without an anchor. *)
Theorem dimArrow_oblique_label (x1 y1 x2 y2 : Q) (lbl : label) (type : string) (opts : Opts) :
  1 # 2 <= Qabs (x2 - x1) -> 1 # 2 <= Qabs (y2 - y1) ->
  1 <= Math_hypot (x2 - x1) (y2 - y1) ->
  exists line tick1 tick2 t : elem,
    dimArrow x1 y1 x2 y2 lbl type opts = [line; tick1; tick2; t] /\
    tag t = "text" /\ textContent t = Some lbl /\
    getAttribute "class" t =
      Some (Str (if String.eqb type "space" then "dim-space-text" else "dim-shape-text")) /\
    getAttribute "x" t = None /\ getAttribute "y" t = None /\
    getAttribute "text-anchor" t = None.
Proof.
  intros Hdx Hdy Hlen.
  apply Qltb_ge in Hdx, Hdy, Hlen.
  unfold dimArrow; cbv zeta. rewrite Hlen, Hdx, Hdy.
  do 4 eexists. split; [reflexivity|]. repeat split.
Qed.

Lemma dimArrow_oblique_label_witness :
  exists line tick1 tick2 t : elem,
    dimArrow 0 0 3 4 (Lit "5.0") "shape" no_opts = [line; tick1; tick2; t] /\
    getAttribute "x" t = None /\ getAttribute "y" t = None.
Proof.
  destruct (dimArrow_oblique_label 0 0 3 4 (Lit "5.0") "shape" no_opts)
    as (line & tick1 & tick2 & t & Hd & _ & _ & _ & Hx & Hy & _);
    try (vm_compute; discriminate).
  exists line, tick1, tick2, t. auto.
Defined.

(** *** Classes of the elements of a drawing *)

Lemma class_in_filter (c : string) (cs : list string) (l : list elem) :
  ~ In c cs -> Forall (class_in cs) l -> filter (has_class c) l = [].
Proof.
  intros Hc Hall. apply filter_none.
  eapply Forall_impl; [|exact Hall].
  intros e (c' & Hcls & Hin). unfold has_class. rewrite Hcls.
  apply String.eqb_neq. intros ->. contradiction.
Qed.

Lemma not_in_classes (c : string) (cs : list string) :
  existsb (String.eqb c) cs = false -> ~ In c cs.
Proof.
  intros Hex Hin.
  assert (Htrue : existsb (String.eqb c) cs = true).
  { apply existsb_exists. exists c. split; [exact Hin | apply String.eqb_refl]. }
  congruence.
Qed.

Lemma class_in_incl (cs cs' : list string) (l : list elem) :
  incl cs cs' -> Forall (class_in cs) l -> Forall (class_in cs') l.
Proof.
  intros Hincl. apply Forall_impl. intros e (c & Hcls & Hin).
  exists c. split; [exact Hcls | now apply Hincl].
Qed.

Lemma dimArrow_classes (x1 y1 x2 y2 : Q) (lbl : label) (type : string) (opts : Opts) :
  Forall (class_in dim_classes) (dimArrow x1 y1 x2 y2 lbl type opts).
Proof.
  unfold dimArrow; cbv zeta.
  destruct (Qltb (Math_hypot (x2 - x1) (y2 - y1)) 1); [constructor|].
  destruct (String.eqb type "space"),
    (Qltb (Qabs (y2 - y1)) (1 # 2)), (Qltb (Qabs (x2 - x1)) (1 # 2)),
    (Qltb (Math_hypot (x2 - x1) (y2 - y1)) MIN_LBL);
    repeat (apply Forall_cons; [eexists; split; [reflexivity | cbn; tauto]|]);
    apply Forall_nil.
Qed.

Lemma extDot_class (x1 y1 x2 y2 : Q) : Forall (class_in ["ext-dot"]) (extDot x1 y1 x2 y2).
Proof. repeat constructor. eexists; split; [reflexivity | cbn; tauto]. Qed.

Lemma boxes_classes (g : Geom) :
  Forall (class_in ["box"; "box-accent"; "diag"; "view-label"]) (boxes g).
Proof.
  unfold boxes, view_label.
  repeat (apply Forall_app; split);
    (apply Forall_cons; [eexists; split; [reflexivity | cbn; tauto] | apply Forall_nil]).
Qed.

Lemma shape_arrows_classes (g : Geom) (calculated : bool) :
  Forall (class_in ("ext-dot" :: dim_classes)) (shape_arrows g calculated).
Proof.
  unfold shape_arrows; cbv zeta.
  repeat (apply Forall_app; split);
    first [ apply (class_in_incl dim_classes); [apply incl_tl, incl_refl | apply dimArrow_classes]
          | apply (class_in_incl ["ext-dot"]);
            [intros c [<- | []]; now left | apply extDot_class] ].
Qed.

Lemma spacing_arrows_classes (g : Geom) (sp : Sp) (calculated : bool) :
  Forall (class_in dim_classes) (spacing_arrows g sp calculated).
Proof.
  unfold spacing_arrows; cbv zeta.
  repeat (apply Forall_app; split);
    (match goal with |- Forall _ (when ?c _) => destruct c end;
     [apply dimArrow_classes | constructor]).
Qed.

(** *** The grid lines *)

(** With a positive scale and a drawing area as wide as the grid, the loop
    runs to its bound: the [break] is never taken. *)
Lemma gridV_run (g : Geom) :
  0 < scale g -> daW g == totalUnitsH g * scale g ->
  forall (n : nat) (u : Z),
    (0 <= u)%Z -> (n <> 0%nat -> (u + Z.of_nat n <= Qfloor (totalUnitsH g) + 1)%Z) ->
    map line_ends (filter (has_class "grid-line") (gridV n u g)) =
    map (fun k : nat =>
           Some (daX g + inject_Z (u + Z.of_nat k) * scale g, daY g,
                 daX g + inject_Z (u + Z.of_nat k) * scale g, daY g + daH g))
        (seq 0 n).
Proof.
  intros HS HW. induction n as [|n IH]; intros u Hu Hn; [reflexivity|].
  specialize (Hn ltac:(discriminate)).
  cbn [gridV].
  assert (Hle : inject_Z u <= totalUnitsH g).
  { apply Qle_trans with (inject_Z (Qfloor (totalUnitsH g))); [|apply Qfloor_le].
    rewrite <- Zle_Qle. lia. }
  assert (E1 : Qle_bool (inject_Z u) (totalUnitsH g) = true) by now apply Qle_bool_iff.
  assert (E2 : Qltb (daX g + daW g + (1 # 10)) (daX g + inject_Z u * scale g) = false).
  { apply Qltb_ge. rewrite HW. nra. }
  rewrite E1, E2. cbn [svgLine mk fold_left app filter map].
  change (has_class "grid-line" _) with true at 1. cbn iota.
  cbn [map seq]. rewrite Z.add_0_r. f_equal.
  rewrite (IH (u + 1)%Z) by lia.
  rewrite <- seq_shift, map_map. apply map_ext. intro k.
  replace (u + 1 + Z.of_nat k)%Z with (u + Z.of_nat (Datatypes.S k))%Z by lia.
  reflexivity.
Qed.

Lemma gridH_run (g : Geom) :
  0 < scale g -> daH g == totalUnitsV g * scale g ->
  forall (n : nat) (u : Z),
    (0 <= u)%Z -> (n <> 0%nat -> (u + Z.of_nat n <= Qfloor (totalUnitsV g) + 1)%Z) ->
    map line_ends (filter (has_class "grid-line") (gridH n u g)) =
    map (fun k : nat =>
           Some (daX g, daY g + inject_Z (u + Z.of_nat k) * scale g,
                 daX g + daW g, daY g + inject_Z (u + Z.of_nat k) * scale g))
        (seq 0 n).
Proof.
  intros HS HW. induction n as [|n IH]; intros u Hu Hn; [reflexivity|].
  specialize (Hn ltac:(discriminate)).
  cbn [gridH].
  assert (Hle : inject_Z u <= totalUnitsV g).
  { apply Qle_trans with (inject_Z (Qfloor (totalUnitsV g))); [|apply Qfloor_le].
    rewrite <- Zle_Qle. lia. }
  assert (E1 : Qle_bool (inject_Z u) (totalUnitsV g) = true) by now apply Qle_bool_iff.
  assert (E2 : Qltb (daY g + daH g + (1 # 10)) (daY g + inject_Z u * scale g) = false).
  { apply Qltb_ge. rewrite HW. nra. }
  rewrite E1, E2. cbn [svgLine mk fold_left app filter map].
  change (has_class "grid-line" _) with true at 1. cbn iota.
  cbn [map seq]. rewrite Z.add_0_r. f_equal.
  rewrite (IH (u + 1)%Z) by lia.
  rewrite <- seq_shift, map_map. apply map_ext. intro k.
  replace (u + 1 + Z.of_nat k)%Z with (u + Z.of_nat (Datatypes.S k))%Z by lia.
  reflexivity.
Qed.

Lemma layout_area (shape : Shape) (sp : Sp) (wrap : Viewport) :
  let g := layout shape sp wrap in
  0 < scale g /\ daW g == totalUnitsH g * scale g /\ daH g == totalUnitsV g * scale g.
Proof.
  intro g. destruct (layout_scale shape sp wrap) as (_ & Hlo & _). fold g in Hlo.
  split; [lra|]. split; reflexivity.
Qed.

(** X11: the grid lines of a drawing are the vertical lines at every whole
    unit from 0 to the horizontal extent of the grid, each as high as the
    drawing area, followed by the horizontal lines at every whole unit from
    0 to the vertical extent, each as wide as the drawing area; an extent
    below zero has no lines.  No other element has the class of a grid
    line. *)
Theorem render_grid_lines (shape : Shape) (sp : Sp) (calculated : bool) (wrap : Viewport) :
  let g := layout shape sp wrap in
  map line_ends (filter (has_class "grid-line") (content (render shape sp calculated wrap))) =
  map (fun u : Z =>
         Some (daX g + inject_Z u * scale g, daY g,
               daX g + inject_Z u * scale g, daY g + daH g))
      (unit_marks (totalUnitsH g))
  ++ map (fun u : Z =>
            Some (daX g, daY g + inject_Z u * scale g,
                  daX g + daW g, daY g + inject_Z u * scale g))
         (unit_marks (totalUnitsV g)).
Proof.
  intro g. destruct (layout_area shape sp wrap) as (HS & HW & HH). fold g in HS, HW, HH.
  unfold render; cbn [content]. fold g.
  rewrite !filter_app.
  rewrite (class_in_filter "grid-line" _ _
             (not_in_classes "grid-line" ["box"; "box-accent"; "diag"; "view-label"] eq_refl)
             (boxes_classes g)).
  rewrite (class_in_filter "grid-line" _ _
             (not_in_classes "grid-line" ("ext-dot" :: dim_classes) eq_refl)
             (shape_arrows_classes g calculated)).
  rewrite (class_in_filter "grid-line" _ _
             (not_in_classes "grid-line" dim_classes eq_refl)
             (spacing_arrows_classes g sp calculated)).
  rewrite !app_nil_r.
  unfold draw_area. rewrite !filter_app, !map_app.
  assert (Hno : forall (x y w h : Q) (c : string),
             c <> "grid-line" ->
             filter (has_class "grid-line")
                    (mk "rect" [("x", Num x); ("y", Num y); ("width", Num w);
                                ("height", Num h); ("class", Str c)]) = []).
  { intros x y w h c Hc. cbn. unfold has_class, getAttribute; cbn.
    apply String.eqb_neq in Hc. now rewrite Hc. }
  rewrite !Hno by discriminate. cbn [map app]. rewrite app_nil_r.
  unfold loop_fuel, unit_marks.
  rewrite (gridV_run g HS HW) by lia.
  rewrite (gridH_run g HS HH) by lia.
  rewrite !map_map. reflexivity.
Qed.

(** *** The boxes and the size of the drawing *)

(** X12: when no spacing value is negative, the boxes lie inside the
    drawing area and do not overlap: from left to right and from top to
    bottom come the edge of the area, the first box, the second box and the
    opposite edge, in this order; the boxes of a row share their top and
    their height, the boxes of a column their left side and their width. *)
Theorem boxes_inside_area (shape : Shape) (sp : Sp) (wrap : Viewport) :
  0 <= h0 sp -> 0 <= h1 sp -> 0 <= v0 sp -> 0 <= v1 sp ->
  let g := layout shape sp wrap in
  (daX g <= tlX g /\ tlX g + tlW g <= trX g /\ trX g + trW g <= daX g + daW g) /\
  (daY g <= tlY g /\ tlY g + tlH g <= blY g /\ blY g + blH g <= daY g + daH g) /\
  (blX g = tlX g /\ blW g = tlW g /\ brX g = trX g /\ brW g = trW g) /\
  (trY g = tlY g /\ trH g = tlH g /\ brY g = blY g /\ brH g = blH g).
Proof.
  intros Hh0 Hh1 Hv0 Hv1 g.
  destruct (layout_area shape sp wrap) as (HS & _ & _). fold g in HS.
  subst g. revert HS.
  cbn [layout scale daX daY daW daH totalUnitsH totalUnitsV
       pH0 pH1 pV0 pV1 tlX tlY tlW tlH trX trY trW trH blX blY blW blH brX brY brW brH].
  set (S := finite _). intro HS.
  assert (0 <= h0 sp * S) by nra. assert (0 <= h1 sp * S) by nra.
  assert (0 <= v0 sp * S) by nra. assert (0 <= v1 sp * S) by nra.
  repeat split; lra.
Qed.

Lemma boxes_inside_area_witness :
  tlX (layout default_shape fallback_sp (mkViewport 600 500)) +
  tlW (layout default_shape fallback_sp (mkViewport 600 500)) <=
  trX (layout default_shape fallback_sp (mkViewport 600 500)).
Proof.
  destruct (boxes_inside_area default_shape fallback_sp (mkViewport 600 500))
    as ((_ & Hsep & _) & _); [discriminate .. | exact Hsep].
Defined.

(** X13: in a wrapper of at least 202 px each way, when the grid has a
    positive extent on both axes and fits at 6 px per unit in the room the
    padding leaves, the drawing is no larger than the room available: the
    size set on the [svg] element is at most the size of the wrapper less
    2 px. *)
Theorem render_fits_wrapper (shape : Shape) (sp : Sp) (calculated : bool) (wrap : Viewport) :
  let g := layout shape sp wrap in
  (202 <= clientWidth wrap)%Z -> (202 <= clientHeight wrap)%Z ->
  0 < totalUnitsH g -> 0 < totalUnitsV g ->
  6 * totalUnitsH g <= inject_Z (clientWidth wrap) - 2 - PAD_L - PAD_R ->
  6 * totalUnitsV g <= inject_Z (clientHeight wrap) - 2 - PAD_T - PAD_B ->
  svg_width (render shape sp calculated wrap) <= inject_Z (clientWidth wrap) - 2 /\
  svg_height (render shape sp calculated wrap) <= inject_Z (clientHeight wrap) - 2.
Proof.
  intros g Hcw Hch HTH HTV HfitH HfitV.
  assert (HaW : avail (clientWidth wrap) 600 == inject_Z (clientWidth wrap) - 2).
  { unfold avail. destruct (clientWidth wrap =? 0)%Z eqn:E; [apply Z.eqb_eq in E; lia|].
    apply Q.max_l. rewrite Zle_Qle in Hcw. change (inject_Z 202) with 202 in Hcw. lra. }
  assert (HaH : avail (clientHeight wrap) 500 == inject_Z (clientHeight wrap) - 2).
  { unfold avail. destruct (clientHeight wrap =? 0)%Z eqn:E; [apply Z.eqb_eq in E; lia|].
    apply Q.max_l. rewrite Zle_Qle in Hch. change (inject_Z 202) with 202 in Hch. lra. }
  unfold render; cbn [svg_width svg_height]. fold g.
  destruct (layout_scale shape sp wrap) as (Hfit & _ & _). fold g in Hfit.
  unfold fitScale, scaleH, scaleV, xdiv in Hfit.
  assert (EH : Qeq_bool (totalUnitsH g) 0 = false).
  { destruct (Qeq_bool (totalUnitsH g) 0) eqn:E; [|reflexivity].
    apply Qeq_bool_iff in E. lra. }
  assert (EV : Qeq_bool (totalUnitsV g) 0 = false).
  { destruct (Qeq_bool (totalUnitsV g) 0) eqn:E; [|reflexivity].
    apply Qeq_bool_iff in E. lra. }
  rewrite EH, EV in Hfit. cbn [xmin xmax] in Hfit.
  apply (f_equal finite) in Hfit. cbn [finite] in Hfit.
  set (sH := (avail (clientWidth wrap) 600 - PAD_L - PAD_R) / totalUnitsH g) in *.
  set (sV := (avail (clientHeight wrap) 500 - PAD_T - PAD_B) / totalUnitsV g) in *.
  assert (HsH : sH * totalUnitsH g == avail (clientWidth wrap) 600 - PAD_L - PAD_R)
    by (unfold sH; field; lra).
  assert (HsV : sV * totalUnitsV g == avail (clientHeight wrap) 500 - PAD_T - PAD_B)
    by (unfold sV; field; lra).
  assert (H6H : 6 <= sH) by (apply Qnot_lt_le; intro; nra).
  assert (H6V : 6 <= sV) by (apply Qnot_lt_le; intro; nra).
  assert (Hmin : 6 <= Qmin (Qmin sH sV) 40).
  { apply Q.min_glb; [apply Q.min_glb; assumption | discriminate]. }
  assert (HS : scale g == Qmin (Qmin sH sV) 40).
  { rewrite Hfit. now apply Q.max_r. }
  assert (HleH : scale g <= sH).
  { rewrite HS. eapply Qle_trans; [apply Q.le_min_l | apply Q.le_min_l]. }
  assert (HleV : scale g <= sV).
  { rewrite HS. eapply Qle_trans; [apply Q.le_min_l | apply Q.le_min_r]. }
  assert (HdW : daW g == totalUnitsH g * scale g) by reflexivity.
  assert (HdH : daH g == totalUnitsV g * scale g) by reflexivity.
  assert (HdX : daX g == PAD_L) by reflexivity.
  assert (HdY : daY g == PAD_T) by reflexivity.
  split; nra.
Qed.

Lemma render_fits_wrapper_witness :
  svg_width (render default_shape fallback_sp false (mkViewport 600 500)) <= 598 /\
  svg_height (render default_shape fallback_sp false (mkViewport 600 500)) <= 498.
Proof.
  apply (render_fits_wrapper default_shape fallback_sp false (mkViewport 600 500));
    vm_compute; first [reflexivity | discriminate].
Defined.

(** X14: the drawing is never scaled below 6 nor above 40 px per unit: on
    a grid whose horizontal extent is not negative the width set on the
    [svg] element lies between padding + 6 * extent and padding + 40 *
    extent.  So when the grid does not fit at 6 px per unit the drawing is
    wider than the room available instead of being shrunk further. *)
Theorem render_width_bounds (shape : Shape) (sp : Sp) (calculated : bool) (wrap : Viewport) :
  let g := layout shape sp wrap in
  0 <= totalUnitsH g ->
  PAD_L + 6 * totalUnitsH g + PAD_R <= svg_width (render shape sp calculated wrap) /\
  svg_width (render shape sp calculated wrap) <= PAD_L + 40 * totalUnitsH g + PAD_R /\
  (avail (clientWidth wrap) 600 - PAD_L - PAD_R < 6 * totalUnitsH g ->
   avail (clientWidth wrap) 600 < svg_width (render shape sp calculated wrap)).
Proof.
  intros g HT.
  destruct (layout_scale shape sp wrap) as (_ & Hlo & Hhi). fold g in Hlo, Hhi.
  unfold render; cbn [svg_width]. fold g.
  assert (HdW : daW g == totalUnitsH g * scale g) by reflexivity.
  assert (HdX : daX g == PAD_L) by reflexivity.
  assert (H6 : 6 * totalUnitsH g <= totalUnitsH g * scale g) by nra.
  assert (H40 : totalUnitsH g * scale g <= 40 * totalUnitsH g) by nra.
  split; [lra|]. split; [lra|]. intro Hsmall. lra.
Qed.

Lemma render_width_bounds_witness :
  avail 200 600 < svg_width (render default_shape fallback_sp false (mkViewport 200 200)).
Proof.
  destruct (render_width_bounds default_shape fallback_sp false (mkViewport 200 200))
    as (_ & _ & Hover); [vm_compute; discriminate|].
  apply Hover. vm_compute. reflexivity.
Defined.

(** *** Extension lines and labels *)

Lemma dimArrow_no_ext_dot (x1 y1 x2 y2 : Q) (lbl : label) (type : string) (opts : Opts) :
  filter (has_class "ext-dot") (dimArrow x1 y1 x2 y2 lbl type opts) = [].
Proof.
  apply (class_in_filter "ext-dot" dim_classes);
    [exact (not_in_classes "ext-dot" dim_classes eq_refl) | apply dimArrow_classes].
Qed.

Lemma svgLine_class (x1 y1 x2 y2 : Q) (c : string) :
  Forall (class_in [c]) (svgLine x1 y1 x2 y2 c).
Proof. repeat constructor. eexists; split; [reflexivity | now left]. Qed.

Lemma gridV_class (fuel : nat) (g : Geom) :
  forall u : Z, Forall (class_in ["grid-line"]) (gridV fuel u g).
Proof.
  induction fuel as [|n IH]; intro u; cbn [gridV]; [constructor|].
  destruct (Qle_bool _ _); [|constructor].
  destruct (Qltb _ _); [constructor|].
  apply Forall_app; split; [apply svgLine_class | apply IH].
Qed.

Lemma gridH_class (fuel : nat) (g : Geom) :
  forall u : Z, Forall (class_in ["grid-line"]) (gridH fuel u g).
Proof.
  induction fuel as [|n IH]; intro u; cbn [gridH]; [constructor|].
  destruct (Qle_bool _ _); [|constructor].
  destruct (Qltb _ _); [constructor|].
  apply Forall_app; split; [apply svgLine_class | apply IH].
Qed.

Lemma draw_area_classes (g : Geom) :
  Forall (class_in ["draw-area-bg"; "grid-line"; "draw-area-box"]) (draw_area g).
Proof.
  unfold draw_area. repeat (apply Forall_app; split).
  - repeat constructor. eexists; split; [reflexivity | cbn; tauto].
  - apply (class_in_incl ["grid-line"]); [|apply gridV_class].
    intros c [<- | []]. cbn; tauto.
  - apply (class_in_incl ["grid-line"]); [|apply gridH_class].
    intros c [<- | []]. cbn; tauto.
  - repeat constructor. eexists; split; [reflexivity | cbn; tauto].
Qed.

(** X15: the sixteen extension lines of the shape arrows are drawn in
    every drawing, also next to an arrow that is too short to be drawn
    itself; they run from the ends of each arrow to the corners of its
    box. *)
Theorem render_extension_lines (shape : Shape) (sp : Sp) (calculated : bool) (wrap : Viewport) :
  let g := layout shape sp wrap in
  map line_ends (filter (has_class "ext-dot") (content (render shape sp calculated wrap))) =
  [ Some (tlX g, tlY g - OFF, tlX g, tlY g);
    Some (tlX g + tlW g, tlY g - OFF, tlX g + tlW g, tlY g);
    Some (tlX g - OFF, tlY g, tlX g, tlY g);
    Some (tlX g - OFF, tlY g + tlH g, tlX g, tlY g + tlH g);
    Some (trX g, trY g - OFF, trX g, trY g);
    Some (trX g + trW g, trY g - OFF, trX g + trW g, trY g);
    Some (trX g + trW g + OFF, trY g, trX g + trW g, trY g);
    Some (trX g + trW g + OFF, trY g + trH g, trX g + trW g, trY g + trH g);
    Some (blX g, blY g + blH g + OFF, blX g, blY g + blH g);
    Some (blX g + blW g, blY g + blH g + OFF, blX g + blW g, blY g + blH g);
    Some (blX g - OFF, blY g, blX g, blY g);
    Some (blX g - OFF, blY g + blH g, blX g, blY g + blH g);
    Some (brX g, brY g + brH g + OFF, brX g, brY g + brH g);
    Some (brX g + brW g, brY g + brH g + OFF, brX g + brW g, brY g + brH g);
    Some (brX g + brW g + OFF, brY g, brX g + brW g, brY g);
    Some (brX g + brW g + OFF, brY g + brH g, brX g + brW g, brY g + brH g) ].
Proof.
  intro g. unfold render; cbn [content]. fold g.
  rewrite !filter_app.
  rewrite (class_in_filter "ext-dot" _ _
             (not_in_classes "ext-dot" ["draw-area-bg"; "grid-line"; "draw-area-box"] eq_refl)
             (draw_area_classes g)).
  rewrite (class_in_filter "ext-dot" _ _
             (not_in_classes "ext-dot" ["box"; "box-accent"; "diag"; "view-label"] eq_refl)
             (boxes_classes g)).
  rewrite (class_in_filter "ext-dot" _ _
             (not_in_classes "ext-dot" dim_classes eq_refl)
             (spacing_arrows_classes g sp calculated)).
  cbn [app]. rewrite app_nil_r.
  unfold shape_arrows; cbv zeta.
  rewrite !filter_app, !dimArrow_no_ext_dot.
  reflexivity.
Qed.

Lemma dimArrow_label (x1 y1 x2 y2 : Q) (lbl : label) (type : string) (opts : Opts) :
  Forall (fun e => is_dimension_label e = true -> textContent e = Some lbl)
         (dimArrow x1 y1 x2 y2 lbl type opts).
Proof.
  destruct (dimArrow_cases x1 y1 x2 y2 lbl type opts)
    as [-> | (line & tick1 & tick2 & t & -> & Hl & H1 & H2 & _ & _ & _ & _ & _ & Ht)];
    [constructor|].
  unfold is_dimension_label.
  repeat (apply Forall_cons; [rewrite ?Hl, ?H1, ?H2; cbn; first [discriminate | intro; exact Ht]|]).
  apply Forall_nil.
Qed.

(** X16: the label of every dimension arrow of a drawing shows one of the
    dimensions of the solid or one of the four spacing values: as the
    number with one decimal when the drawing is calculated, as the
    placeholder otherwise. *)
Theorem render_labels (shape : Shape) (sp : Sp) (calculated : bool) (wrap : Viewport) :
  Forall (fun e : elem =>
            is_dimension_label e = true ->
            exists v : Q,
              In v (labelled_values shape sp) /\
              textContent e = Some (if calculated then ToFixed v 1 else Lit "?"))
         (content (render shape sp calculated wrap)).
Proof.
  assert (Hplain : forall l : list elem,
             Forall plain l ->
             Forall (fun e : elem =>
                       is_dimension_label e = true ->
                       exists v : Q,
                         In v (labelled_values shape sp) /\
                         textContent e = Some (if calculated then ToFixed v 1 else Lit "?")) l).
  { intro l. apply Forall_impl. intros e [_ Hl] Hd. congruence. }
  assert (Harrow : forall (x1 y1 x2 y2 v : Q) (type : string) (opts : Opts),
             In v (labelled_values shape sp) ->
             Forall (fun e : elem =>
                       is_dimension_label e = true ->
                       exists v : Q,
                         In v (labelled_values shape sp) /\
                         textContent e = Some (if calculated then ToFixed v 1 else Lit "?"))
                    (dimArrow x1 y1 x2 y2 (fmt calculated v) type opts)).
  { intros x1 y1 x2 y2 v type opts Hv.
    eapply Forall_impl; [|apply dimArrow_label].
    intros e He Hd. exists v. split; [exact Hv | exact (He Hd)]. }
  unfold render; cbn [content].
  apply Forall_app; split; [apply Hplain, draw_area_plain|].
  apply Forall_app; split; [apply Hplain, boxes_plain|].
  apply Forall_app; split.
  - unfold shape_arrows; cbv zeta. cbn [layout fW fH dW dH].
    repeat (apply Forall_app; split);
      first [ apply Harrow; cbn; tauto | apply Hplain, extDot_plain ].
  - unfold spacing_arrows; cbv zeta.
    repeat (apply Forall_app; split);
      (match goal with |- Forall _ (when ?c _) => destruct c end;
       [apply Harrow; cbn; tauto | constructor]).
Qed.

Lemma render_labels_witness :
  exists (t : elem) (v : Q),
    In t (content (drawing (calculate default_page))) /\
    is_dimension_label t = true /\ textContent t = Some (ToFixed v 1).
Proof.
  pose proof (render_labels default_shape (calculate_sp no_fields) true (mkViewport 600 500))
    as Hall.
  rewrite Forall_forall in Hall.
  destruct (find is_dimension_label (content (drawing (calculate default_page))))
    as [t|] eqn:E; [|vm_compute in E; discriminate].
  apply find_some in E. destruct E as [Hin Hdim].
  destruct (Hall t Hin Hdim) as (v & _ & Htext).
  exists t, v. auto.
Defined.

(** *** The handlers *)

(** X17: a calculation reads the fields and the wrapper only: calculating
    after the initial render, or twice, gives the page a single calculation
    gives.  Once a calculation has shown the results section, a resize
    calculates again for the new size of the wrapper; while the section is
    hidden a resize repeats the initial render, and neither of the two
    changes the results section. *)
Theorem handlers_compose (p : Page) (w : Viewport) :
  calculate (init p) = calculate p /\
  calculate (calculate p) = calculate p /\
  on_resize (set_wrap w (calculate p)) = calculate (set_wrap w p) /\
  (results_display p = "none" ->
   on_resize (set_wrap w p) = init (set_wrap w p) /\
   on_resize (set_wrap w (init p)) = init (set_wrap w p) /\
   calculate (on_resize p) = calculate p /\
   results_display (on_resize p) = "none" /\ result_rows (on_resize p) = result_rows p) /\
  (results_display p <> "none" -> on_resize p = calculate p) /\
  results_display (calculate p) = "" /\
  results_display (init p) = results_display p.
Proof.
  split; [reflexivity|]. split; [reflexivity|]. split; [reflexivity|].
  split; [|split; [|split; reflexivity]].
  - intro Hnone. destruct p as [f wr d rows dr]. cbn [results_display] in Hnone. subst d.
    repeat split; reflexivity.
  - intro Hshown. unfold on_resize.
    apply String.eqb_neq in Hshown. rewrite Hshown. reflexivity.
Qed.

Lemma handlers_compose_witness :
  on_resize (set_wrap (mkViewport 300 300) default_page) =
  init (set_wrap (mkViewport 300 300) default_page) /\
  on_resize (calculate default_page) = calculate (calculate default_page).
Proof.
  destruct (handlers_compose default_page (mkViewport 300 300))
    as (_ & _ & _ & Hhidden & _).
  destruct (Hhidden eq_refl) as (Hresize & _).
  split; [exact Hresize|].
  destruct (handlers_compose (calculate default_page) (mkViewport 300 300))
    as (_ & _ & _ & _ & Hshown & _).
  apply Hshown. discriminate.
Defined.

(** *** Shape arrows *)

Lemma Qltb_ext (a b c : Q) : (a < c <-> b < c) -> Qltb a c = Qltb b c.
Proof.
  intro Hiff. destruct (Qltb b c) eqn:E.
  - apply Qltb_lt. apply Hiff. now apply Qltb_lt.
  - apply Qltb_ge. apply Qltb_ge in E. apply Qnot_lt_le. intro Hlt.
    apply Hiff in Hlt. lra.
Qed.

Lemma square_below_one (p : Q) : p * p < 1 <-> Qabs p < 1.
Proof.
  rewrite Qabs_Qlt_condition. split; [intro Hsq; split; nra | intros [Hlo Hhi]; nra].
Qed.

(** The test of [dimArrow] on the length, for an arrow along an axis. *)
Lemma len_test_horizontal (x1 x2 y p : Q) :
  x2 - x1 == p -> Qltb (Math_hypot (x2 - x1) (y - y)) 1 = Qltb (Qabs p) 1.
Proof.
  intro Hp. rewrite Math_hypot_ltb. apply Qltb_ext.
  rewrite <- square_below_one.
  assert (H0 : (y - y) * (y - y) == 0) by ring.
  rewrite H0, Hp, Qplus_0_r. reflexivity.
Qed.

Lemma len_test_vertical (x y1 y2 p : Q) :
  y2 - y1 == p -> Qltb (Math_hypot (x - x) (y2 - y1)) 1 = Qltb (Qabs p) 1.
Proof.
  intro Hp. rewrite Math_hypot_ltb. apply Qltb_ext.
  rewrite <- square_below_one.
  assert (H0 : (x - x) * (x - x) == 0) by ring.
  rewrite H0, Hp, Qplus_0_l. reflexivity.
Qed.

Lemma shape_arrow_at (x1 y1 x2 y2 : Q) (lbl : label) (opts : Opts) :
  map line_ends (filter is_shape_arrow (dimArrow x1 y1 x2 y2 lbl "shape" opts)) =
  if Qltb (Math_hypot (x2 - x1) (y2 - y1)) 1 then [] else [Some (x1, y1, x2, y2)].
Proof.
  unfold dimArrow; cbv zeta.
  destruct (Qltb (Math_hypot (x2 - x1) (y2 - y1)) 1); [reflexivity|].
  destruct (Qltb (Qabs (y2 - y1)) (1 # 2)), (Qltb (Qabs (x2 - x1)) (1 # 2)),
    (Qltb (Math_hypot (x2 - x1) (y2 - y1)) MIN_LBL); reflexivity.
Qed.

Lemma plain_not_shape_arrow (e : elem) : plain e -> is_shape_arrow e = false.
Proof.
  intros [Hm _]. unfold is_shape_arrow. rewrite Hm. apply andb_false_r.
Qed.

Lemma spacing_arrows_no_shape_arrow (g : Geom) (sp : Sp) (calculated : bool) :
  filter is_shape_arrow (spacing_arrows g sp calculated) = [].
Proof.
  assert (Hone : forall (c : bool) (x1 y1 x2 y2 : Q) (lbl : label) (opts : Opts),
             filter is_shape_arrow (when c (dimArrow x1 y1 x2 y2 lbl "space" opts)) = []).
  { intros c x1 y1 x2 y2 lbl opts. destruct c; [|reflexivity]. cbn [when].
    destruct (dimArrow_cases x1 y1 x2 y2 lbl "space" opts)
      as [-> | (line & tick1 & tick2 & t & -> & _ & _ & _ & H1 & H2 & Hl & _ & Ht & _)];
      [reflexivity|].
    apply filter_none. unfold is_shape_arrow.
    repeat constructor; rewrite ?H1, ?H2, ?Hl, ?Ht; cbn; auto using andb_false_r. }
  unfold spacing_arrows; cbv zeta. rewrite !filter_app, !Hone. reflexivity.
Qed.

(** X18: the shape arrows of a drawing are exactly those of the sides of
    the boxes that are at least 1 px long, in the order of the source,
    each [OFF] px outside its box; a side shorter than 1 px gets no arrow.
    Since the scale is at least 6, every arrow is drawn when each dimension
    of the views is at least a sixth of a unit. *)
Theorem shape_arrows_by_side (shape : Shape) (sp : Sp) (calculated : bool) (wrap : Viewport) :
  let g := layout shape sp wrap in
  let arrows := map line_ends
                    (filter is_shape_arrow (content (render shape sp calculated wrap))) in
  arrows =
    map (fun s => Some (ends s))
        (filter (fun s => negb (Qltb (Qabs (extent s)) 1)) (shape_sites g)) /\
  (1 # 6 <= View.H (FRONT shape) -> 1 # 6 <= View.V (FRONT shape) ->
   1 # 6 <= View.H (RIGHT shape) -> 1 # 6 <= View.V (TOP shape) ->
   arrows = map (fun s => Some (ends s)) (shape_sites g)).
Proof.
  intros g arrows.
  assert (Heq : arrows =
                map (fun s => Some (ends s))
                    (filter (fun s => negb (Qltb (Qabs (extent s)) 1)) (shape_sites g))).
  { subst arrows. unfold render; cbn [content]. fold g.
    rewrite !filter_app.
    rewrite (filter_none _ _ (Forall_impl _ plain_not_shape_arrow (draw_area_plain g))).
    rewrite (filter_none _ _ (Forall_impl _ plain_not_shape_arrow (boxes_plain g))).
    rewrite spacing_arrows_no_shape_arrow.
    cbn [app]. rewrite app_nil_r.
    unfold shape_arrows; cbv zeta.
    rewrite !filter_app, !map_app, !shape_arrow_at.
    rewrite (len_test_horizontal (tlX g) (tlX g + tlW g) _ (tlW g)) by ring.
    rewrite (len_test_vertical _ (tlY g) (tlY g + tlH g) (tlH g)) by ring.
    rewrite (len_test_horizontal (trX g) (trX g + trW g) _ (trW g)) by ring.
    rewrite (len_test_vertical _ (trY g) (trY g + trH g) (trH g)) by ring.
    rewrite (len_test_horizontal (blX g) (blX g + blW g) _ (blW g)) by ring.
    rewrite (len_test_vertical _ (blY g) (blY g + blH g) (blH g)) by ring.
    rewrite (len_test_horizontal (brX g) (brX g + brW g) _ (brW g)) by ring.
    rewrite (len_test_vertical _ (brY g) (brY g + brH g) (brH g)) by ring.
    unfold shape_sites. cbn [filter map extent ends].
    change (tlW g) with (pfW g). change (blW g) with (pfW g).
    change (trW g) with (pdW g). change (brW g) with (pdW g).
    change (tlH g) with (pdH g). change (trH g) with (pdH g).
    change (blH g) with (pfH g). change (brH g) with (pfH g).
    destruct (Qltb (Qabs (pfW g)) 1), (Qltb (Qabs (pdW g)) 1),
      (Qltb (Qabs (pdH g)) 1), (Qltb (Qabs (pfH g)) 1); reflexivity. }
  split; [exact Heq|].
  intros HfW HfH HdW HdH. rewrite Heq.
  destruct (layout_scale shape sp wrap) as (_ & Hlo & _). fold g in Hlo.
  assert (Hlong : forall d : Q, 1 # 6 <= d -> negb (Qltb (Qabs (d * scale g)) 1) = true).
  { intros d Hd. apply negb_true_iff, Qltb_ge.
    rewrite Qabs_pos by nra. nra. }
  unfold shape_sites. cbn [filter extent].
  change (tlW g) with (View.H (FRONT shape) * scale g).
  change (blW g) with (View.H (FRONT shape) * scale g).
  change (trW g) with (View.H (RIGHT shape) * scale g).
  change (brW g) with (View.H (RIGHT shape) * scale g).
  change (tlH g) with (View.V (TOP shape) * scale g).
  change (trH g) with (View.V (TOP shape) * scale g).
  change (blH g) with (View.V (FRONT shape) * scale g).
  change (brH g) with (View.V (FRONT shape) * scale g).
  rewrite !Hlong by assumption. reflexivity.
Qed.

Lemma shape_arrows_by_side_witness :
  map line_ends
      (filter is_shape_arrow
              (content (render default_shape fallback_sp false (mkViewport 600 500)))) =
  map (fun s => Some (ends s))
      (shape_sites (layout default_shape fallback_sp (mkViewport 600 500))).
Proof.
  destruct (shape_arrows_by_side default_shape fallback_sp false (mkViewport 600 500))
    as [_ Hall].
  apply Hall; discriminate.
Defined.

(** *** Whole leftovers *)

Lemma Math_round_integer (x : Q) (k : Z) : x == inject_Z k -> Math_round x = k.
Proof.
  intro Hx. unfold Math_round.
  assert (Hfl : Qfloor (x + (1 # 2)) = Qfloor (inject_Z k + (1 # 2))).
  { apply Qfloor_comp. now rewrite Hx. }
  rewrite Hfl.
  assert (Hlo : (k <= Qfloor (inject_Z k + (1 # 2)))%Z).
  { rewrite <- (Qfloor_Z k) at 1. apply Qfloor_resp_le. lra. }
  assert (Hhi : (Qfloor (inject_Z k + (1 # 2)) < k + 1)%Z).
  { rewrite Zlt_Qlt.
    apply Qle_lt_trans with (inject_Z k + (1 # 2)); [apply Qfloor_le|].
    rewrite inject_Z_plus. change (inject_Z 1) with 1. lra. }
  lia.
Qed.

(** X19: when what the area leaves beside the two views of an axis is a
    whole number of units that is not negative, the grid [calculate] draws
    has exactly the size of the requested area on that axis. *)
Theorem calculate_exact_area (f : Fields) (wrap : Viewport) (k : Z) :
  let i := readInputs f in
  let g := layout (in_shape i) (calculate_sp f) wrap in
  (0 <= k)%Z ->
  (in_aH i - (in_W i + in_D i) == inject_Z k -> totalUnitsH g == in_aH i) /\
  (in_aV i - (in_H i + in_D i) == inject_Z k -> totalUnitsV g == in_aV i).
Proof.
  intros i g Hk.
  destruct (calculate_sp_entries f) as (Hv0 & Hv1 & Hh0 & Hh1). fold i in Hv0, Hv1, Hh0, Hh1.
  split; intro Hraw.
  - assert (Hr : horiRounded (in_aH i) (in_shape i) = k).
    { apply Math_round_integer. rewrite <- Hraw. reflexivity. }
    pose proof (axis_sum Horizontal (in_aH i) (in_aV i) (in_shape i)) as Hsum.
    cbn [rounded_on] in Hsum. rewrite Hr in Hsum. specialize (Hsum Hk).
    rewrite <- Hh0, <- Hh1 in Hsum.
    subst g. cbn [layout totalUnitsH].
    assert (HW : View.H (FRONT (in_shape i)) == in_W i) by reflexivity.
    assert (HD : View.H (RIGHT (in_shape i)) == in_D i) by reflexivity.
    lra.
  - assert (Hr : vertRounded (in_aV i) (in_shape i) = k).
    { apply Math_round_integer. rewrite <- Hraw. reflexivity. }
    pose proof (axis_sum Vertical (in_aH i) (in_aV i) (in_shape i)) as Hsum.
    cbn [rounded_on] in Hsum. rewrite Hr in Hsum. specialize (Hsum Hk).
    rewrite <- Hv0, <- Hv1 in Hsum.
    subst g. cbn [layout totalUnitsV].
    assert (HH : View.V (FRONT (in_shape i)) == in_H i) by reflexivity.
    assert (HD : View.V (TOP (in_shape i)) == in_D i) by reflexivity.
    lra.
Qed.

Lemma calculate_exact_area_witness :
  totalUnitsH (layout default_shape (calculate_sp no_fields) (mkViewport 600 500)) == 16.
Proof.
  destruct (calculate_exact_area no_fields (mkViewport 600 500) 5) as [Hh _];
    [discriminate|].
  apply Hh. reflexivity.
Defined.
